(** * lib-jitsi-meet: the SDP <-> Jingle translator (modules/sdp/SDP.js)

  A shallow embedding of the [SDP] class: the description text is a
  [string], the model's fields are a record, the Jingle stanza is a small
  XML tree, and the stanza builder is a tree with a cursor.  The methods
  are state-passing functions over these. *)

From Stdlib Require Import Ascii.
From stdpp Require Import base strings list gmap pretty.

Local Open Scope stdpp_scope.
#[local] Set Warnings "-clear-no-such-hyp".

(** ** JavaScript strings and arrays *)

Module JS.

(** The line terminator of a description, carriage return and line feed. *)
Definition CRLF : string := String "013"%char (String "010"%char "").

(** [s.substring(0, p.length) === p] *)
Fixpoint startsWith (p s : string) : bool :=
  match p, s with
  | "", _ => true
  | String a p', String b s' => if decide (a = b) then startsWith p' s' else false
  | String _ _, "" => false
  end.

(** [s.substring(n)] *)
Fixpoint substring_from (n : nat) (s : string) : string :=
  match n, s with
  | O, _ => s
  | S k, String _ s' => substring_from k s'
  | S _, "" => ""
  end.

(** [s.includes(p)] *)
Fixpoint includes (p s : string) : bool :=
  startsWith p s ||
  match s with
  | "" => false
  | String _ s' => includes p s'
  end.

(** [s.split(sep)] for a separator that is not empty: [cur] is the piece
    being read, [skip] counts the characters of a separator that was just
    recognised and is still to be passed over. *)
Fixpoint split_go (sep : string) (skip : nat) (cur s : string) : list string :=
  match s with
  | "" => [cur]
  | String ch s' =>
      match skip with
      | S k => split_go sep k cur s'
      | O =>
          if startsWith sep s
          then cur :: split_go sep (String.length sep - 1) "" s'
          else split_go sep 0 (cur +:+ String ch "") s'
      end
  end.

(** [s.split(sep)]; with the empty separator JavaScript cuts between every
    two characters. *)
Definition split (sep s : string) : list string :=
  match sep with
  | "" => (λ ch, String ch "") <$> String.list_ascii_of_string s
  | _ => split_go sep 0 "" s
  end.

(** [l.join(sep)] *)
Definition join (sep : string) (l : list string) : string :=
  match l with
  | [] => ""
  | x :: xs => x +:+ foldr (λ y acc, sep +:+ y +:+ acc) "" xs
  end.

(** [ch.toLowerCase()] on the ASCII letters. *)
Definition lower_char (ch : ascii) : ascii :=
  let n := Stdlib.Strings.Ascii.N_of_ascii ch in
  if decide (65 ≤ n ≤ 90)%N then Stdlib.Strings.Ascii.ascii_of_N (n + 32) else ch.

(** [s.toLowerCase()] *)
Fixpoint toLowerCase (s : string) : string :=
  match s with
  | "" => ""
  | String ch s' => String (lower_char ch) (toLowerCase s')
  end.

(** [s.indexOf(p)]: [None] for [-1]. *)
Fixpoint indexOf (p s : string) : option nat :=
  if startsWith p s then Some 0
  else match s with
       | "" => None
       | String _ s' => S <$> indexOf p s'
       end.

(** [s.substr(0, n)] *)
Fixpoint substr_to (n : nat) (s : string) : string :=
  match n, s with
  | S k, String ch s' => String ch (substr_to k s')
  | _, _ => ""
  end.

(** A string in a condition: the empty string is falsy. *)
Definition truthy (s : string) : bool :=
  match s with "" => false | _ => true end.

(** [`${x}`] for a value that may be [null]. *)
Definition str_null (o : option string) : string := default "null" o.

(** [`${x}`] for a value that may be [undefined]. *)
Definition str_undefined (o : option string) : string := default "undefined" o.

End JS.

(** ** The model: the fields of an [SDP] instance *)

Record SDP := mkSDP {
isP2P : bool;
media : list string;
raw : string;
session : string;
failICE : bool;
removeTcpCandidates : bool;
removeUdpCandidates : bool;
(** set from outside on the instance; [None] while it is not a number *)
initialLastN : option Z
}.

(** [constructor(sdp, isP2P = false)] *)
Definition constructor (sdp : string) (isP2P : bool) : SDP :=
let media := JS.split (JS.CRLF +:+ "m=") sdp in
let length := length media in
let media :=
  imap (λ i mediai,
          match i with
          | O => mediai
          | _ =>
              let mediaI := "m=" +:+ mediai in
              if decide (i ≠ length - 1) then mediaI +:+ JS.CRLF else mediaI
          end) media in
(* media.shift() *)
let session := JS.str_undefined (head media) +:+ JS.CRLF in
let media := tail media in
{| isP2P := isP2P;
   media := media;
   raw := session +:+ JS.join "" media;
   session := session;
   failICE := false;
   removeTcpCandidates := false;
   removeUdpCandidates := false;
   initialLastN := None |}.

(** ** XML trees

    A stanza received from the signaling channel and the elements a stanza
    builder makes are trees of elements with ordered attributes, ordered
    children and text nodes. *)

#[warnings="-register-all"]
Inductive Node : Type :=
| Element (tag : string) (attributes : list (string * string)) (children : list Node)
| TextNode (data : string).

(** An attribute object [{ k: v, ... }] handed to the builder, and any other
    plain object with string values: the keys in insertion order, [None] for a
    value that is [undefined] or [null]. *)
Abbreviation jsobject := (list (string * option string)).

Module Xml.

Fixpoint assoc_get {A} (k : string) (l : list (string * A)) : option A :=
  match l with
  | [] => None
  | (k', v) :: l' => if decide (k' = k) then Some v else assoc_get k l'
  end.

(** Assignment keeps the position of a key that is already there. *)
Fixpoint assoc_set {A} (k : string) (v : A) (l : list (string * A)) : list (string * A) :=
  match l with
  | [] => [(k, v)]
  | (k', v') :: l' => if decide (k' = k) then (k, v) :: l' else (k', v') :: assoc_set k v l'
  end.

Definition assoc_del {A} (k : string) (l : list (string * A)) : list (string * A) :=
  filter (λ kv, kv.1 ≠ k) l.

Definition tagName (n : Node) : option string :=
  match n with Element tg _ _ => Some tg | TextNode _ => None end.

Definition attributes_of (n : Node) : list (string * string) :=
  match n with Element _ a _ => a | TextNode _ => [] end.

Definition childNodes (n : Node) : list Node :=
  match n with Element _ _ cs => cs | TextNode _ => [] end.

(** [n.getAttribute(name)]: [None] is JavaScript's [null]. *)
Definition getAttribute (name : string) (n : Node) : option string :=
  assoc_get name (attributes_of n).

Definition hasAttribute (name : string) (n : Node) : bool :=
  bool_decide (is_Some (getAttribute name n)).

Definition setAttribute (name value : string) (n : Node) : Node :=
  match n with
  | Element tg a cs => Element tg (assoc_set name value a) cs
  | TextNode _ => n
  end.

Definition removeAttribute (name : string) (n : Node) : Node :=
  match n with
  | Element tg a cs => Element tg (assoc_del name a) cs
  | TextNode _ => n
  end.

Definition appendChild (child : Node) (n : Node) : Node :=
  match n with
  | Element tg a cs => Element tg a (cs ++ [child])
  | TextNode _ => n
  end.

(** The text of a node: the data of the text nodes below it, in order. *)
Fixpoint textContent (n : Node) : string :=
  match n with
  | TextNode s => s
  | Element _ _ cs =>
      (fix go (cs : list Node) : string :=
         match cs with
         | [] => ""
         | ch :: cs' => textContent ch +:+ go cs'
         end) cs
  end.

Definition is_element (tg : string) (n : Node) : bool :=
  bool_decide (tagName n = Some tg).

(** The node a path of child indices leads to. *)
Fixpoint get_at (p : list nat) (n : Node) : option Node :=
  match p with
  | [] => Some n
  | i :: p' => childNodes n !! i ≫= get_at p'
  end.

(** The tree with the node at a path replaced by its image; a path that
    leads nowhere changes nothing. *)
Fixpoint update_at (p : list nat) (f : Node → Node) (n : Node) : Node :=
  match p with
  | [] => f n
  | i :: p' =>
      match n with
      | Element tg a cs => Element tg a (alter (update_at p' f) i cs)
      | TextNode _ => n
      end
  end.

(** The paths of the proper descendants that satisfy [P], in document
    order. *)
Fixpoint find_paths (P : Node → bool) (n : Node) : list (list nat) :=
  match n with
  | Element _ _ cs =>
      (fix go (i : nat) (cs : list Node) : list (list nat) :=
         match cs with
         | [] => []
         | ch :: cs' =>
             (if P ch then [[i]] else []) ++ (cons i <$> find_paths P ch) ++ go (S i) cs'
         end) 0 cs
  | TextNode _ => []
  end.

(** How many proper descendants satisfy [P]. *)
Fixpoint count_desc (P : Node → bool) (n : Node) : nat :=
  match n with
  | Element _ _ cs =>
      (fix go (cs : list Node) : nat :=
         match cs with
         | [] => 0
         | ch :: cs' => (if P ch then 1 else 0) + count_desc P ch + go cs'
         end) cs
  | TextNode _ => 0
  end.

End Xml.

(** ** jQuery over a stanza

    A jQuery object is the list of the elements it holds, in document
    order. *)

Module JQ.

(** [set.find('>tag')] *)
Definition find_child (tg : string) (set : list Node) : list Node :=
  n ← set; filter (λ ch, Xml.is_element tg ch) (Xml.childNodes n).

(** [set.find(">tag[xmlns='ns']")] *)
Definition find_child_ns (tg ns : string) (set : list Node) : list Node :=
  filter (λ ch, Xml.getAttribute "xmlns" ch = Some ns) (find_child tg set).

(** [set.attr(name)]: the attribute of the first element, [None] for
    [undefined]. *)
Definition attr (name : string) (set : list Node) : option string :=
  head set ≫= Xml.getAttribute name.

(** [set.map(cb).get()]: jQuery leaves out the [null] and [undefined]
    results. *)
Definition map_get {A} (cb : Node → option A) (set : list Node) : list A :=
  omap cb set.

(** [set.text()] *)
Definition text (set : list Node) : string :=
  foldr (λ n acc, Xml.textContent n +:+ acc) "" set.

End JQ.

(** ** The stanza builder (Strophe.Builder)

    [nodeTree] is the root element and [node] the path to the element the
    builder is positioned at.  [up] at the root keeps the root (Strophe loses
    the current node there; the conversions are called with a builder
    positioned below the root, at the [jingle] element of an [iq]). *)

Record Builder := mkBuilder {
  nodeTree : Node;
  node : list nat
}.

Module Strophe.

(** [Strophe.xmlElement(name, attrs)]: the attributes whose value is neither
    [undefined] nor [null] are set. *)
Definition xmlElement (name : string) (attrs : jsobject) : Node :=
  foldl (λ n kv, match kv.2 with
                 | Some v => Xml.setAttribute kv.1 v n
                 | None => n
                 end) (Element name [] []) attrs.

Definition at_cursor (f : Node → Node) (b : Builder) : Builder :=
  {| nodeTree := Xml.update_at (node b) f (nodeTree b); node := node b |}.

(** [elem.c(name, attrs)]: append a child and move to it. *)
Definition c (name : string) (attrs : jsobject) (b : Builder) : Builder :=
  let idx := length (default [] (Xml.childNodes <$> Xml.get_at (node b) (nodeTree b))) in
  {| nodeTree := Xml.update_at (node b) (Xml.appendChild (xmlElement name attrs)) (nodeTree b);
     node := node b ++ [idx] |}.

(** [elem.up()] *)
Definition up (b : Builder) : Builder :=
  {| nodeTree := nodeTree b; node := removelast (node b) |}.

(** [elem.attrs(moreattrs)]: an [undefined] value removes the attribute. *)
Definition set_attrs (moreattrs : jsobject) (n : Node) : Node :=
  foldl (λ n kv, match kv.2 with
                 | Some v => Xml.setAttribute kv.1 v n
                 | None => Xml.removeAttribute kv.1 n
                 end) n moreattrs.

Definition attrs (moreattrs : jsobject) (b : Builder) : Builder :=
  at_cursor (set_attrs moreattrs) b.

(** [elem.t(text)] *)
Definition t (text : string) (b : Builder) : Builder :=
  at_cursor (Xml.appendChild (TextNode text)) b.

(** [elem.tree()] *)
Definition tree (b : Builder) : Node := nodeTree b.

End Strophe.

(** Sequencing of the calls made on one builder. *)
Definition seq (f g : Builder → Builder) : Builder → Builder := λ b, g (f b).
Infix ">>" := seq (at level 61, left associativity).

Definition skip : Builder → Builder := id.

(** [elem.c(name, attrs); body; elem.up()] *)
Definition block (name : string) (attrs : jsobject) (body : Builder → Builder)
  : Builder → Builder :=
  Strophe.c name attrs >> body >> Strophe.up.

(** [l.forEach(x => body)] *)
Definition forEach {A} (l : list A) (body : A → Builder → Builder) : Builder → Builder :=
  λ b, foldl (λ b x, body x b) b l.

(** [if (cond) body] *)
Definition when (cond : bool) (body : Builder → Builder) : Builder → Builder :=
  if cond then body else skip.

(** ** Constants of the service modules *)

(** Modelled from the spec: the namespace constants of
    service/xmpp/XMPPExtensioProtocols, which is not among the sources.  The
    conversions only compare them with each other and stamp them on
    elements. *)
Module XEP.
Definition BUNDLE_MEDIA : string := "urn:xmpp:jingle:apps:grouping:0".
Definition DTLS_SRTP : string := "urn:xmpp:jingle:apps:dtls:0".
Definition ICE_UDP_TRANSPORT : string := "urn:xmpp:jingle:transports:ice-udp:1".
Definition RTP_MEDIA : string := "urn:xmpp:jingle:apps:rtp:1".
Definition RTP_FEEDBACK : string := "urn:xmpp:jingle:apps:rtp:rtcp-fb:0".
Definition RTP_HEADER_EXTENSIONS : string := "urn:xmpp:jingle:apps:rtp:rtp-hdrext:0".
Definition SCTP_DATA_CHANNEL : string := "urn:xmpp:jingle:transports:dtls-sctp:1".
Definition SOURCE_ATTRIBUTES : string := "urn:xmpp:jingle:apps:rtp:ssma:0".
End XEP.

(** Modelled from the spec: the four direction markers of
    service/RTC/MediaDirection (send-only, receive-only, send-receive,
    inactive), which is not among the sources. *)
Module MediaDirection.
Definition INACTIVE : string := "inactive".
Definition RECVONLY : string := "recvonly".
Definition SENDONLY : string := "sendonly".
Definition SENDRECV : string := "sendrecv".
End MediaDirection.

(** Modelled from the spec: the media types of service/RTC/MediaType (audio,
    video, application-data), which is not among the sources. *)
Module MediaType.
Definition APPLICATION : string := "application".
Definition AUDIO : string := "audio".
Definition VIDEO : string := "video".
End MediaType.

(** ** The line codec (SDPUtil) *)

(** A parsed media line. *)
Record MLine := mkMLine {
  mline_media : string;
  mline_port : option string;
  mline_proto : option string;
  mline_fmt : list string
}.

(** The object [jingle2media] hands to [buildMLine]. *)
Record MediaOut := mkMediaOut {
  out_media : option string;
  out_port : string;
  out_proto : string;
  out_fmt : list string
}.

(** A parsed feedback line. *)
Record RtcpFb := mkRtcpFb {
  fb_type : option string;
  fb_params : list string
}.

(** A parsed source-group line. *)
Record SSRCGroup := mkSSRCGroup {
  semantics : option string;
  group_ssrcs : list string
}.

(** A parsed extension-mapping line; [extmap_direction] is [None] when the
    object has no [direction] property of its own. *)
Record Extmap := mkExtmap {
  extmap_value : option string;
  extmap_direction : option string;
  extmap_uri : option string
}.

(** Modelled from the spec: the line-level parse and build helpers of
    SDPUtil and the capability predicate of the browser module, which are not
    among the sources: one pure function per attribute kind.  The results are
    typed as the conversions use them; [candidateToJingle] is taken to yield
    the candidate's attribute object for every line found under the candidate
    prefix. *)
Class LineCodec := {
  parseMID : option string → string;
  parseMLine : string → MLine;
  buildMLine : MediaOut → string;
  buildICEUfrag : string → string;
  buildICEPwd : string → string;
  candidateFromJingle : Node → string;
  buildRTPMap : Node → string;
  filterSpecialChars : option string → option string;
  parseRTCPFB : string → RtcpFb;
  parseSSRC : string → list (string * list string);
  parseSourceNameLine : list string → option string;
  parseVideoTypeLine : list string → option string;
  parseMSIDAttribute : list string → option string;
  parseSSRCGroupLine : string → SSRCGroup;
  parseRTPMap : option string → jsobject;
  parseFmtp : string → list jsobject;
  parseExtmap : string → Extmap;
  parseSCTPPort : string → string;
  parseSCTPMap : string → list string;
  parseFingerprint : string → jsobject;
  iceparams : string → string → option jsobject;
  candidateToJingle : string → jsobject;
  usesRidsForSimulcast : bool
}.

Module SDPUtil.

(** The lines of a block that start with [needle]. *)
Definition lines_with (needle haystack : string) : list string :=
  filter (λ line, JS.startsWith needle line = true) (JS.split JS.CRLF haystack).

(** Modelled from the spec: SDPUtil.findLine, the line-prefix search within
    one section, which falls back on the session part when one is given:
    the first line that starts with [needle], [None] for [false]. *)
Definition findLine (haystack needle : string) (sessionpart : option string)
  : option string :=
  match head (lines_with needle haystack), sessionpart with
  | Some line, _ => Some line
  | None, Some sessionpart => head (lines_with needle sessionpart)
  | None, None => None
  end.

(** Modelled from the spec: SDPUtil.findLines, the multi-line search: every
    line of the section that starts with [needle], and those of the session
    part when the section has none. *)
Definition findLines (haystack needle : string) (sessionpart : option string)
  : list string :=
  match lines_with needle haystack, sessionpart with
  | [], Some sessionpart => lines_with needle sessionpart
  | needles, _ => needles
  end.

End SDPUtil.

(** ** The SSRC inventory *)

Record ChannelSsrc := mkChannelSsrc {
  ssrc : string;
  lines : list string
}.

Record MediaSsrc := mkMediaSsrc {
  mediaindex : nat;
  mediaType : string;
  mid : string;
  ssrcs : gmap string ChannelSsrc;
  ssrcGroups : list SSRCGroup
}.

Section inventory.
Context `{LineCodec}.

(** The [a=ssrc:] lines of a section, gathered by identifier. *)
Definition collect_ssrcs (mediaItem : string) : gmap string ChannelSsrc :=
  foldl (λ ssrcs line,
           let linessrc := default "" (head (JS.split " " (JS.substring_from 7 line))) in
           (* Allocate new ChannelSsrc. *)
           let ssrcs :=
             match ssrcs !! linessrc with
             | None => <[linessrc := {| ssrc := linessrc; lines := [] |}]> ssrcs
             | Some _ => ssrcs
             end in
           alter (λ ch, {| ssrc := ssrc ch; lines := lines ch ++ [line] |}) linessrc ssrcs)
        ∅ (SDPUtil.findLines mediaItem "a=ssrc:" None).

(** The [a=ssrc-group:] lines of a section. *)
Definition collect_ssrcGroups (mediaItem : string) : list SSRCGroup :=
  foldl (λ groups line,
           let idx := JS.indexOf " " line in
           let semantics :=
             JS.substring_from 13 (from_option (λ idx, JS.substr_to idx line) "" idx) in
           let ssrcs := JS.split " " (JS.substring_from (14 + String.length semantics) line) in
           if decide (length ssrcs ≠ 0)
           then groups ++ [{| semantics := Some semantics; group_ssrcs := ssrcs |}]
           else groups)
        [] (SDPUtil.findLines mediaItem "a=ssrc-group:" None).

(** The entry [getMediaSsrcMap] makes for one section. *)
Definition media_ssrc_entry (mediaindex : nat) (mediaItem : string) : MediaSsrc :=
  let mid := parseMID (SDPUtil.findLine mediaItem "a=mid:" None) in
  let mline := parseMLine (default "" (head (JS.split JS.CRLF mediaItem))) in
  {| mediaindex := mediaindex;
     mediaType := mline_media mline;
     mid := mid;
     ssrcs := collect_ssrcs mediaItem;
     ssrcGroups := collect_ssrcGroups mediaItem |}.

(** [getMediaSsrcMap()]: the map from section index to its entry. *)
Definition getMediaSsrcMap (s : SDP) : gmap nat MediaSsrc :=
  foldl (λ sourceInfo im, <[im.1 := media_ssrc_entry im.1 im.2]> sourceInfo)
        ∅ (imap pair (media s)).

(** [containsSSRC(ssrc)] *)
Definition containsSSRC (s : SDP) (ssrc : string) : bool :=
  let sourceMap := getMediaSsrcMap s in
  existsb (λ media, bool_decide (is_Some (ssrcs media !! ssrc)))
          (map_to_list sourceMap).*2.

End inventory.

(** ** Stanza to description *)

(** The test both directions make on a candidate's protocol: whether the
    candidate is left out. *)
Definition candidate_removed (s : SDP) (protocol : string) : bool :=
  (removeTcpCandidates s
   && (bool_decide (protocol = "tcp") || bool_decide (protocol = "ssltcp")))
  || (removeUdpCandidates s && bool_decide (protocol = "udp")).

Section from_jingle.
Context `{LineCodec}.

(** [rtcpFbFromJingle(elem, payloadtype)] *)
Definition rtcpFbFromJingle (elem : list Node) (payloadtype : option string) : string :=
  let sdp := "" in
  let feedbackElementTrrInt := JQ.find_child_ns "rtcp-fb-trr-int" XEP.RTP_FEEDBACK elem in
  let sdp :=
    if decide (length feedbackElementTrrInt ≠ 0) then
      let sdp := sdp +:+ "a=rtcp-fb:* trr-int " in
      let sdp := sdp +:+ match JQ.attr "value" feedbackElementTrrInt with
                         | Some v => if JS.truthy v then v else "0"
                         | None => "0"
                         end in
      sdp +:+ JS.CRLF
    else sdp in
  let feedbackElements := JQ.find_child_ns "rtcp-fb" XEP.RTP_FEEDBACK elem in
  foldl (λ sdp fb,
           let sdp := sdp +:+ "a=rtcp-fb:" +:+ JS.str_null payloadtype +:+ " "
                          +:+ JS.str_null (Xml.getAttribute "type" fb) in
           let sdp :=
             if Xml.hasAttribute "subtype" fb
             then sdp +:+ " " +:+ JS.str_null (Xml.getAttribute "subtype" fb)
             else sdp in
           sdp +:+ JS.CRLF)
        sdp feedbackElements.

(** The candidate lines of [jingle2media]: the loop over the transport's
    candidate children. *)
Definition jingle2media_candidates (s : SDP) (transport : list Node) (sdp : string) : string :=
  foldl (λ sdp candidate,
           let protocol := Xml.getAttribute "protocol" candidate in
           let protocol := from_option JS.toLowerCase "" protocol in
           if candidate_removed s protocol
           then sdp
           else
             let candidate :=
               if failICE s then Xml.setAttribute "ip" "1.1.1.1" candidate else candidate in
             sdp +:+ candidateFromJingle candidate)
        sdp (JQ.find_child "candidate" transport).

(** The source lines of one [source] element and whether it is a user
    source. *)
Definition source_lines (source : Node) : string * bool :=
  let ssrc := Xml.getAttribute "ssrc" source in
  foldl (λ '(sourceStr, isUserSource) parameter,
           let name := Xml.getAttribute "name" parameter in
           let value := Xml.getAttribute "value" parameter in
           let value := filterSpecialChars value in
           let sourceStr :=
             sourceStr +:+ "a=ssrc:" +:+ JS.str_null ssrc +:+ " " +:+ JS.str_null name in
           let sourceStr :=
             match value with
             | Some v => if JS.truthy v then sourceStr +:+ ":" +:+ v else sourceStr
             | None => sourceStr
             end in
           let sourceStr := sourceStr +:+ JS.CRLF in
           let isUserSource :=
             match value with
             | Some v => if JS.includes "mixedmslabel" v then false else isUserSource
             | None => isUserSource
             end in
           (sourceStr, isUserSource))
        ("", true) (JQ.find_child "parameter" [source]).

(** The loop over the description's [source] children: the user sources and
    the others are gathered apart. *)
Definition jingle2media_sources (desc : list Node) : string * string :=
  foldl (λ '(userSources, nonUserSources) source,
           let '(sourceStr, isUserSource) := source_lines source in
           if isUserSource
           then (userSources +:+ sourceStr, nonUserSources)
           else (userSources, nonUserSources +:+ sourceStr))
        ("", "") (JQ.find_child_ns "source" XEP.SOURCE_ATTRIBUTES desc).

(** [jingle2media(content)], first part: the media line, the connection
    lines, the ICE credentials and the fingerprints. *)
Definition jingle2media_transport (s : SDP) (content : Node) : string :=
  let content := [content] in
  let desc := JQ.find_child "description" content in
  let transport := JQ.find_child_ns "transport" XEP.ICE_UDP_TRANSPORT content in
  let sdp := "" in
  let sctp := JQ.find_child_ns "sctpmap" XEP.SCTP_DATA_CHANNEL transport in
  let media_media := JQ.attr "media" desc in
  let media_port :=
    if decide (JQ.attr "senders" content = Some "rejected") then "0" else "9" in
  let media_proto :=
    if decide (length (JQ.find_child_ns "fingerprint" XEP.DTLS_SRTP transport) ≠ 0)
    then (if decide (length sctp ≠ 0) then "UDP/DTLS/SCTP" else "UDP/TLS/RTP/SAVPF")
    else "UDP/TLS/RTP/SAVPF" in
  let sdp :=
    if decide (length sctp ≠ 0) then
      let sdp := sdp +:+ "m=application " +:+ media_port
                     +:+ " UDP/DTLS/SCTP webrtc-datachannel" +:+ JS.CRLF in
      let sdp := sdp +:+ "a=sctp-port:" +:+ JS.str_undefined (JQ.attr "number" sctp)
                     +:+ JS.CRLF in
      sdp +:+ "a=max-message-size:262144" +:+ JS.CRLF
    else
      let media_fmt :=
        JQ.map_get (Xml.getAttribute "id") (JQ.find_child "payload-type" desc) in
      sdp +:+ buildMLine {| out_media := media_media; out_port := media_port;
                            out_proto := media_proto; out_fmt := media_fmt |}
          +:+ JS.CRLF in
  let sdp := sdp +:+ "c=IN IP4 0.0.0.0" +:+ JS.CRLF in
  let sdp :=
    if decide (length sctp ≠ 0) then sdp
    else sdp +:+ "a=rtcp:1 IN IP4 0.0.0.0" +:+ JS.CRLF in
  let sdp :=
    if decide (length transport ≠ 0) then
      let sdp :=
        match JQ.attr "ufrag" transport with
        | Some ufrag =>
            if JS.truthy ufrag then sdp +:+ buildICEUfrag ufrag +:+ JS.CRLF else sdp
        | None => sdp
        end in
      let sdp :=
        match JQ.attr "pwd" transport with
        | Some pwd =>
            if JS.truthy pwd then sdp +:+ buildICEPwd pwd +:+ JS.CRLF else sdp
        | None => sdp
        end in
      foldl (λ sdp fingerprint,
               let sdp := sdp +:+ "a=fingerprint:"
                              +:+ JS.str_null (Xml.getAttribute "hash" fingerprint)
                              +:+ " " +:+ JQ.text [fingerprint] +:+ JS.CRLF in
               if Xml.hasAttribute "setup" fingerprint
               then sdp +:+ "a=setup:"
                        +:+ JS.str_null (Xml.getAttribute "setup" fingerprint) +:+ JS.CRLF
               else sdp)
            sdp (JQ.find_child_ns "fingerprint" XEP.DTLS_SRTP transport)
    else sdp in
  sdp.

(** [jingle2media(content)], the direction line for the content's senders
    attribute, and the mid line. *)
Definition jingle2media_direction (content : Node) (sdp : string) : string :=
  let content := [content] in
  let senders := JQ.attr "senders" content in
  let sdp :=
    if decide (senders = Some "initiator")
    then sdp +:+ "a=" +:+ MediaDirection.SENDONLY +:+ JS.CRLF
    else if decide (senders = Some "responder")
    then sdp +:+ "a=" +:+ MediaDirection.RECVONLY +:+ JS.CRLF
    else if decide (senders = Some "none")
    then sdp +:+ "a=" +:+ MediaDirection.INACTIVE +:+ JS.CRLF
    else if decide (senders = Some "both")
    then sdp +:+ "a=" +:+ MediaDirection.SENDRECV +:+ JS.CRLF
    else sdp in
  let sdp := sdp +:+ "a=mid:" +:+ JS.str_undefined (JQ.attr "name" content) +:+ JS.CRLF in
  sdp.

(** [jingle2media(content)], the lines of the description: multiplexing,
    payload types with parameters and feedback, header extensions and source
    groups. *)
Definition jingle2media_description (desc : list Node) (sdp : string) : string :=
  let sdp :=
    if decide (length (JQ.find_child "rtcp-mux" desc) ≠ 0)
    then sdp +:+ "a=rtcp-mux" +:+ JS.CRLF else sdp in
  let sdp :=
    foldl (λ sdp payloadType,
             let sdp := sdp +:+ buildRTPMap payloadType +:+ JS.CRLF in
             let sdp :=
               if decide (length (JQ.find_child "parameter" [payloadType]) ≠ 0) then
                 let sdp := sdp +:+ "a=fmtp:"
                                +:+ JS.str_null (Xml.getAttribute "id" payloadType) +:+ " " in
                 let sdp :=
                   sdp +:+ JS.join ";"
                     (JQ.map_get
                        (λ parameter,
                           let name := Xml.getAttribute "name" parameter in
                           Some (match name with
                                 | Some n => if JS.truthy n then n +:+ "=" else ""
                                 | None => ""
                                 end +:+ JS.str_null (Xml.getAttribute "value" parameter)))
                        (JQ.find_child "parameter" [payloadType])) in
                 sdp +:+ JS.CRLF
               else sdp in
             sdp +:+ rtcpFbFromJingle [payloadType] (Xml.getAttribute "id" payloadType))
          sdp (JQ.find_child "payload-type" desc) in
  let sdp := sdp +:+ rtcpFbFromJingle desc (Some "*") in
  let sdp :=
    foldl (λ sdp hdrExt,
             sdp +:+ "a=extmap:" +:+ JS.str_null (Xml.getAttribute "id" hdrExt) +:+ " "
                 +:+ JS.str_null (Xml.getAttribute "uri" hdrExt) +:+ JS.CRLF)
          sdp (JQ.find_child_ns "rtp-hdrext" XEP.RTP_HEADER_EXTENSIONS desc) in
  let sdp :=
    if decide (0 < length (JQ.find_child_ns "extmap-allow-mixed" XEP.RTP_HEADER_EXTENSIONS desc))
    then sdp +:+ "a=extmap-allow-mixed" +:+ JS.CRLF else sdp in
  let sdp :=
    foldl (λ sdp ssrcGroup,
             let semantics := Xml.getAttribute "semantics" ssrcGroup in
             let ssrcs :=
               JQ.map_get (Xml.getAttribute "ssrc") (JQ.find_child "source" [ssrcGroup]) in
             if decide (length ssrcs ≠ 0)
             then sdp +:+ "a=ssrc-group:" +:+ JS.str_null semantics +:+ " "
                      +:+ JS.join " " ssrcs +:+ JS.CRLF
             else sdp)
          sdp (JQ.find_child_ns "ssrc-group" XEP.SOURCE_ATTRIBUTES desc) in
  sdp.

(** [jingle2media(content)], up to the loop over the description's [source]
    children. *)
Definition jingle2media_head (s : SDP) (content : Node) : string :=
  let desc := JQ.find_child "description" [content] in
  let transport := JQ.find_child_ns "transport" XEP.ICE_UDP_TRANSPORT [content] in
  let sdp := jingle2media_transport s content in
  let sdp := jingle2media_candidates s transport sdp in
  let sdp := jingle2media_direction content sdp in
  jingle2media_description desc sdp.

(** [jingle2media(content)] *)
Definition jingle2media (s : SDP) (content : Node) : string :=
  let desc := JQ.find_child "description" [content] in
  let sdp := jingle2media_head s content in
  let '(userSources, nonUserSources) := jingle2media_sources desc in
  (* Append sources in the correct order, the mixedmslable m-line which has
     the JVB's SSRC for RTCP termination is expected to be in the first
     m-line. *)
  let sdp := sdp +:+ nonUserSources +:+ userSources in
  sdp.

(** The session header [fromJingle] writes: the fixed lines and one group
    line for each grouping element that names a content. *)
Definition fromJingle_session (sessionId : N) (jingle : Node) : string :=
  let raw := "v=0" +:+ JS.CRLF
             +:+ "o=- " +:+ pretty sessionId +:+ " 2 IN IP4 0.0.0.0" +:+ JS.CRLF
             +:+ "s=-" +:+ JS.CRLF
             +:+ "t=0 0" +:+ JS.CRLF in
  let groups := JQ.find_child_ns "group" XEP.BUNDLE_MEDIA [jingle] in
  foldl (λ raw group,
           let contents :=
             JQ.map_get (Xml.getAttribute "name") (JQ.find_child "content" [group]) in
           if decide (0 < length contents) then
             raw +:+ "a=group:"
                 +:+ JS.str_null (match Xml.getAttribute "semantics" group with
                                  | Some sem =>
                                      if JS.truthy sem then Some sem
                                      else Xml.getAttribute "type" group
                                  | None => Xml.getAttribute "type" group
                                  end)
                 +:+ " " +:+ JS.join " " contents +:+ JS.CRLF
           else raw)
        raw groups.

(** [fromJingle(jingle)]; [sessionId] is the value of [Date.now()]. *)
Definition fromJingle (sessionId : N) (jingle : Node) (s : SDP) : SDP :=
  let raw := fromJingle_session sessionId jingle in
  let session := raw in
  let media :=
    foldl (λ media content, media ++ [jingle2media s content])
          (media s) (JQ.find_child "content" [jingle]) in
  {| isP2P := isP2P s;
     media := media;
     raw := session +:+ JS.join "" media;
     session := session;
     failICE := failICE s;
     removeTcpCandidates := removeTcpCandidates s;
     removeUdpCandidates := removeUdpCandidates s;
     initialLastN := initialLastN s |}.

End from_jingle.

(** ** Description to stanza *)

Section to_jingle.
Context `{LineCodec}.

(** [rtcpFbToJingle(mediaIndex, elem, payloadtype)] on the section text
    [this.media[mediaIndex]]. *)
Definition rtcpFbToJingle_section (mediaItem : string) (payloadtype : string)
  : Builder → Builder :=
  let lines := SDPUtil.findLines mediaItem ("a=rtcp-fb:" +:+ payloadtype) None in
  forEach lines (λ line,
    let feedback := parseRTCPFB line in
    if decide (fb_type feedback = Some "trr-int") then
      block "rtcp-fb-trr-int"
        [("xmlns", Some XEP.RTP_FEEDBACK); ("value", fb_params feedback !! 0)] skip
    else
      block "rtcp-fb" [("xmlns", Some XEP.RTP_FEEDBACK); ("type", fb_type feedback)]
        (when (bool_decide (0 < length (fb_params feedback)))
           (Strophe.attrs [("subtype", fb_params feedback !! 0)]))).

(** [rtcpFbToJingle(mediaIndex, elem, payloadtype)]; an index outside the
    list has no section text to search. *)
Definition rtcpFbToJingle (s : SDP) (mediaIndex : nat) (payloadtype : string)
  : Builder → Builder :=
  from_option (λ mediaItem, rtcpFbToJingle_section mediaItem payloadtype) skip
              (media s !! mediaIndex).

(** [transportToJingle], the SCTP mapping: from the port line, or else from
    the legacy map line. *)
Definition transport_sctp (s : SDP) (mediaItem : string) : Builder → Builder :=
  let sctpport := SDPUtil.findLine mediaItem "a=sctp-port:" (Some (session s)) in
  let sctpmap := SDPUtil.findLine mediaItem "a=sctpmap:" (Some (session s)) in
  match sctpport, sctpmap with
  | Some sctpport, _ =>
      let sctpAttrs := parseSCTPPort sctpport in
      block "sctpmap"
        [("xmlns", Some XEP.SCTP_DATA_CHANNEL);
         ("number", Some sctpAttrs);
         ("protocol", Some "webrtc-datachannel")]
        (* The parser currently requires streams to be present. *)
        (Strophe.attrs [("streams", Some "0")])
  | None, Some sctpmap =>
      let sctpAttrs := parseSCTPMap sctpmap in
      block "sctpmap"
        [("xmlns", Some XEP.SCTP_DATA_CHANNEL);
         ("number", sctpAttrs !! 0);
         ("protocol", sctpAttrs !! 1)]
        (* Optional stream count attribute. *)
        (Strophe.attrs
           [("streams", if decide (2 < length sctpAttrs) then sctpAttrs !! 2 else Some "0")])
  | None, None => skip
  end.

(** [transportToJingle], the fingerprints with their setup role. *)
Definition transport_fingerprints (s : SDP) (mediaItem : string) : Builder → Builder :=
  let fingerprints := SDPUtil.findLines mediaItem "a=fingerprint:" (Some (session s)) in
  forEach fingerprints (λ line,
    let fingerprint := parseFingerprint line in
    let fingerprint := Xml.assoc_set "xmlns" (Some XEP.DTLS_SRTP) fingerprint in
    block "fingerprint" []
      (Strophe.t (JS.str_undefined (mjoin (Xml.assoc_get "fingerprint" fingerprint)))
       >>
       let fingerprint := Xml.assoc_del "fingerprint" fingerprint in
       let setupLine := SDPUtil.findLine mediaItem "a=setup:" (Some (session s)) in
       let fingerprint :=
         match setupLine with
         | Some setupLine =>
             Xml.assoc_set "setup" (Some (JS.substring_from 8 setupLine)) fingerprint
         | None => fingerprint
         end in
       Strophe.attrs fingerprint)).

(** [transportToJingle], the loop over the candidate lines. *)
Definition transport_candidates (s : SDP) (mediaItem : string) : Builder → Builder :=
  let candidateLines := SDPUtil.findLines mediaItem "a=candidate:" (Some (session s)) in
  forEach candidateLines (λ line, (* add any a=candidate lines *)
    let candidate := candidateToJingle line in
    let candidate :=
      if failICE s then Xml.assoc_set "ip" (Some "1.1.1.1") candidate else candidate in
    let protocol :=
      from_option JS.toLowerCase "" (mjoin (Xml.assoc_get "protocol" candidate)) in
    if candidate_removed s protocol then skip
    else block "candidate" candidate skip).

(** [transportToJingle(mediaIndex, elem)] on the section text
    [this.media[mediaIndex]]. *)
Definition transportToJingle_section (s : SDP) (mediaItem : string) : Builder → Builder :=
  block "transport" []
    (transport_sctp s mediaItem
     >> transport_fingerprints s mediaItem
     >>
     (let iceParameters := iceparams mediaItem (session s) in
      match iceParameters with
      | Some iceParameters =>
          let iceParameters :=
            Xml.assoc_set "xmlns" (Some XEP.ICE_UDP_TRANSPORT) iceParameters in
          Strophe.attrs iceParameters >> transport_candidates s mediaItem
      | None => skip
      end)).

(** [transportToJingle(mediaIndex, elem)]; an index outside the list has no
    section text to search. *)
Definition transportToJingle (s : SDP) (mediaIndex : nat) : Builder → Builder :=
  from_option (transportToJingle_section s) skip (media s !! mediaIndex).

(** The [source] elements of a section's SSRC entries: [elem.c('source',
    ...)], with a [parameter] child when there is a stream id. *)
Definition source_attrs (availableSsrc : string) (ssrcParameters : list string) : jsobject :=
  let sourceName := parseSourceNameLine ssrcParameters in
  let videoType := parseVideoTypeLine ssrcParameters in
  [("ssrc", Some availableSsrc); ("name", sourceName); ("videoType", videoType);
   ("xmlns", Some XEP.SOURCE_ATTRIBUTES)].

(** [if (msid)]: a stream id that is there and not empty. *)
Definition msid_of (ssrcParameters : list string) : option string :=
  match parseMSIDAttribute ssrcParameters with
  | Some msid => if JS.truthy msid then Some msid else None
  | None => None
  end.

(** The first identifier of the section's [a=ssrc:] lines; [None] for
    [false]. *)
Definition first_ssrc (mediaItem : string) : option string :=
  let assrcline := SDPUtil.findLine mediaItem "a=ssrc:" None in
  match assrcline with
  | Some assrcline => head (JS.split " " (JS.substring_from 7 assrcline))
  | None => None
  end.

(** [if (ssrc)] *)
Definition has_ssrc (mediaItem : string) : bool :=
  from_option JS.truthy false (first_ssrc mediaItem).

(** The resolved content name of a section: Jicofo expects the
    [application] media type to be signaled as [data]. *)
Definition resolved_type (mediaItem : string) : string :=
  let mline := parseMLine (default "" (head (JS.split JS.CRLF mediaItem))) in
  if decide (mline_media mline = MediaType.APPLICATION) then "data" else mline_media mline.

(** The elements a later section of a media type adds to the description
    of the content that is already there: built with [Strophe.xmlElement]
    and [append]. *)
Definition merged_sources (mediaItem : string) : list Node :=
  let ssrcMap := parseSSRC mediaItem in
  (λ '(availableSsrc, ssrcParameters),
     let source := Strophe.xmlElement "source" (source_attrs availableSsrc ssrcParameters) in
     match msid_of ssrcParameters with
     | Some msid =>
         let param :=
           Strophe.xmlElement "parameter" [("name", Some "msid"); ("value", Some msid)] in
         Xml.appendChild param source
     | None => source
     end) <$> ssrcMap.

Definition merged_groups (mediaItem : string) : list Node :=
  let ssrcGroupLines := SDPUtil.findLines mediaItem "a=ssrc-group:" None in
  ssrcGroupLines ≫= λ line,
    let g := parseSSRCGroupLine line in
    if decide (length (group_ssrcs g) ≠ 0) then
      let group :=
        Strophe.xmlElement "ssrc-group"
          [("semantics", semantics g); ("xmlns", Some XEP.SOURCE_ATTRIBUTES)] in
      [foldl (λ group val,
                Xml.appendChild (Strophe.xmlElement "source" [("ssrc", Some val)]) group)
             group (group_ssrcs g)]
    else [].

(** [set.append(child)] for a jQuery object over elements of the builder's
    tree, held by their paths. *)
Definition jq_append (targets : list (list nat)) (child : Node) (b : Builder) : Builder :=
  {| nodeTree := foldl (λ t p, Xml.update_at p (Xml.appendChild child) t) (nodeTree b) targets;
     node := node b |}.

(** [content[name='mediaType']] *)
Definition content_named (name : string) (n : Node) : bool :=
  Xml.is_element "content" n && bool_decide (Xml.getAttribute "name" n = Some name).

(** The first content of that name that carries a [creator] attribute. *)
Definition created_content (name : string) (b : Builder) : option (list nat) :=
  let contents := Xml.find_paths (content_named name) (Strophe.tree b) in
  snd <$> list_find
    (λ p, from_option (Xml.hasAttribute "creator") false (Xml.get_at p (Strophe.tree b)) = true)
    contents.

(** The body of the loop over the contents found: the sources and source
    groups of the section go into the descriptions below [content]. *)
Definition merge_section (mediaItem : string) (content : list nat) (b : Builder) : Builder :=
  if has_ssrc mediaItem then
    let description :=
      (content ++.) <$>
        from_option (Xml.find_paths (Xml.is_element "description")) []
                    (Xml.get_at content (Strophe.tree b)) in
    let b := foldl (λ b source, jq_append description source b) b (merged_sources mediaItem) in
    foldl (λ b group, jq_append description group b) b (merged_groups mediaItem)
  else b.

(** The senders attribute an extension mapping's direction stamps on the
    element under the cursor. *)
Definition extmap_senders (extmap : Extmap) : Builder → Builder :=
  let direction := extmap_direction extmap in
  if decide (direction = Some MediaDirection.SENDONLY)
  then Strophe.attrs [("senders", Some "responder")]
  else if decide (direction = Some MediaDirection.RECVONLY)
  then Strophe.attrs [("senders", Some "initiator")]
  else if decide (direction = Some MediaDirection.SENDRECV)
  then Strophe.attrs [("senders", Some "both")]
  else if decide (direction = Some MediaDirection.INACTIVE)
  then Strophe.attrs [("senders", Some "none")]
  else skip.

(** The [description] child of an audio or video content. *)
Definition description_block (s : SDP) (mediaItem : string) (mediaType : string)
  : Builder → Builder :=
  let mline := parseMLine (default "" (head (JS.split JS.CRLF mediaItem))) in
  block "description" [("xmlns", Some XEP.RTP_MEDIA); ("media", Some mediaType)]
    (forEach (mline_fmt mline) (λ format,
       let rtpmap := SDPUtil.findLine mediaItem ("a=rtpmap:" +:+ format) None in
       block "payload-type" (parseRTPMap rtpmap)
         (let afmtpline := SDPUtil.findLine mediaItem ("a=fmtp:" +:+ format) None in
          match afmtpline with
          | Some afmtpline =>
              let fmtpParameters := parseFmtp afmtpline in
              forEach fmtpParameters (λ param, block "parameter" param skip)
          | None => skip
          end
          >> rtcpFbToJingle_section mediaItem format))
     >>
     when (has_ssrc mediaItem)
       (let ssrcMap := parseSSRC mediaItem in
        forEach ssrcMap (λ '(availableSsrc, ssrcParameters),
          block "source" (source_attrs availableSsrc ssrcParameters)
            match msid_of ssrcParameters with
            | Some msid =>
                block "parameter" []
                  (Strophe.attrs [("name", Some "msid"); ("value", Some msid)])
            | None => skip
            end)
        >>
        let ssrcGroupLines := SDPUtil.findLines mediaItem "a=ssrc-group:" None in
        forEach ssrcGroupLines (λ line,
          let g := parseSSRCGroupLine line in
          when (bool_decide (length (group_ssrcs g) ≠ 0))
            (block "ssrc-group"
               [("semantics", semantics g); ("xmlns", Some XEP.SOURCE_ATTRIBUTES)]
               (forEach (group_ssrcs g) (λ s, block "source" [("ssrc", Some s)] skip)))))
     >>
     (let ridLines := SDPUtil.findLines mediaItem "a=rid:" None in
      when (bool_decide (length ridLines ≠ 0) && usesRidsForSimulcast)
        (* Map a line which looks like "a=rid:2 send" to just the rid ("2"). *)
        (let rids :=
           (λ ridLine,
              default "" (head (JS.split " " (default "" (JS.split ":" ridLine !! 1)))))
           <$> ridLines in
         forEach rids (λ rid,
           block "source" [("rid", Some rid); ("xmlns", Some XEP.SOURCE_ATTRIBUTES)] skip)
         >>
         let unifiedSimulcast := SDPUtil.findLine mediaItem "a=simulcast:" None in
         when (bool_decide (is_Some unifiedSimulcast))
           (block "rid-group"
              [("semantics", Some "SIM"); ("xmlns", Some XEP.SOURCE_ATTRIBUTES)]
              (forEach rids (λ rid, block "source" [("rid", Some rid)] skip)))))
     >>
     when (bool_decide (is_Some (SDPUtil.findLine mediaItem "a=rtcp-mux" None)))
       (block "rtcp-mux" [] skip)
     >>
     rtcpFbToJingle_section mediaItem "*"
     >>
     (let extmapLines := SDPUtil.findLines mediaItem "a=extmap:" (Some (session s)) in
      forEach extmapLines (λ extmapLine,
        let extmap := parseExtmap extmapLine in
        block "rtp-hdrext"
          [("xmlns", Some XEP.RTP_HEADER_EXTENSIONS);
           ("uri", extmap_uri extmap);
           ("id", extmap_value extmap)]
          (extmap_senders extmap)))
     >>
     when (bool_decide
             (is_Some (SDPUtil.findLine mediaItem "a=extmap-allow-mixed" (Some (session s)))))
       (block "extmap-allow-mixed" [("xmlns", Some XEP.RTP_HEADER_EXTENSIONS)] skip)).

(** Set senders attribute based on media direction. *)
Definition direction_senders (mediaItem : string) : Builder → Builder :=
  if bool_decide (is_Some (SDPUtil.findLine mediaItem ("a=" +:+ MediaDirection.SENDRECV) None))
  then Strophe.attrs [("senders", Some "both")]
  else if bool_decide
            (is_Some (SDPUtil.findLine mediaItem ("a=" +:+ MediaDirection.SENDONLY) None))
  then Strophe.attrs [("senders", Some "initiator")]
  else if bool_decide
            (is_Some (SDPUtil.findLine mediaItem ("a=" +:+ MediaDirection.RECVONLY) None))
  then Strophe.attrs [("senders", Some "responder")]
  else if bool_decide
            (is_Some (SDPUtil.findLine mediaItem ("a=" +:+ MediaDirection.INACTIVE) None))
  then Strophe.attrs [("senders", Some "none")]
  else skip.

(** Reject an m-line only when port is 0 and a=bundle-only is not present
    in the section.  The port is automatically set to 0 when bundle-only is
    used. *)
Definition is_rejected (s : SDP) (mediaItem : string) : bool :=
  let mline := parseMLine (default "" (head (JS.split JS.CRLF mediaItem))) in
  bool_decide (mline_port mline = Some "0")
  && negb (bool_decide
             (is_Some (SDPUtil.findLine mediaItem "a=bundle-only" (Some (session s))))).

(** The content element a section makes when no content of its resolved
    name was made before it. *)
Definition content_block (s : SDP) (thecreator : string) (mediaItem : string)
  : Builder → Builder :=
  let mediaType := resolved_type mediaItem in
  let mid := parseMID (SDPUtil.findLine mediaItem "a=mid:" None) in
  block "content"
    [("creator", Some thecreator); ("name", Some (if isP2P s then mid else mediaType))]
    (when (bool_decide (mediaType = MediaType.VIDEO) && bool_decide (is_Some (initialLastN s)))
       (block "initial-last-n"
          [("xmlns", Some "jitsi:colibri2"); ("value", pretty <$> initialLastN s)] skip)
     >>
     when (bool_decide (mediaType ∈ [MediaType.AUDIO; MediaType.VIDEO]))
       (description_block s mediaItem mediaType)
     >>
     (* Map ice-ufrag/pwd, dtls fingerprint, candidates. *)
     transportToJingle_section s mediaItem
     >>
     direction_senders mediaItem
     >>
     when (is_rejected s mediaItem) (Strophe.attrs [("senders", Some "rejected")])).

(** The body of the loop over the media sections. *)
Definition toJingle_media (s : SDP) (thecreator : string) (mediaItem : string)
  : Builder → Builder :=
  λ elem,
    let mediaType := resolved_type mediaItem in
    match created_content mediaType elem with
    | Some content => merge_section mediaItem content elem
    | None => content_block s thecreator mediaItem elem
    end.

(** The grouping elements made from the session's group lines. *)
Definition toJingle_groups (s : SDP) : Builder → Builder :=
  forEach (SDPUtil.findLines (session s) "a=group:" None) (λ line,
    let parts := JS.split " " line in
    let semantics := JS.substring_from 8 (default "" (head parts)) in
    block "group" [("xmlns", Some XEP.BUNDLE_MEDIA); ("semantics", Some semantics)]
      ((* Bundle all the media types. Jicofo expects the 'application' media
          type to be signaled as 'data'. *)
       let mediaTypes := [MediaType.AUDIO; MediaType.VIDEO; "data"] in
       (* For p2p connection, 'mid' will be used in the bundle group. *)
       let mediaTypes :=
         if isP2P s
         then (λ mediaItem, parseMID (SDPUtil.findLine mediaItem "a=mid:" None)) <$> media s
         else mediaTypes in
       forEach mediaTypes (λ type, block "content" [("name", Some type)] skip))).

(** [toJingle(elem, thecreator)] *)
Definition toJingle (s : SDP) (elem : Builder) (thecreator : string) : Builder :=
  (toJingle_groups s
   >> forEach (media s) (toJingle_media s thecreator)
   >> Strophe.up) elem.

End to_jingle.

(** ** A line codec for the examples *)

Module Wire.

(** The value of an SSRC line's attribute [key]: what follows
    [a=ssrc:<id> <key>:] on the first line that has it. *)
Definition ssrc_param (key : string) (lines : list string) : option string :=
  head (omap (λ line,
                let rest := JS.substring_from 1
                              (from_option (λ i, JS.substring_from i line) ""
                                           (JS.indexOf " " line)) in
                if JS.startsWith (key +:+ ":") rest
                then Some (JS.substring_from (String.length key + 1) rest)
                else None) lines).

Definition parseMLine (line : string) : MLine :=
  let parts := JS.split " " (JS.substring_from 2 line) in
  let fmt := drop 3 parts in
  {| mline_media := default "" (parts !! 0);
     mline_port := parts !! 1;
     mline_proto := parts !! 2;
     mline_fmt := if decide (last fmt = Some "") then removelast fmt else fmt |}.

Definition buildMLine (mline : MediaOut) : string :=
  "m=" +:+ JS.str_undefined (out_media mline) +:+ " " +:+ out_port mline +:+ " "
  +:+ out_proto mline +:+ " " +:+ JS.join " " (out_fmt mline).

Definition candidateFromJingle (cand : Node) : string :=
  "a=candidate:" +:+ JS.str_null (Xml.getAttribute "foundation" cand) +:+ " "
  +:+ JS.str_null (Xml.getAttribute "component" cand) +:+ " "
  +:+ JS.str_null (Xml.getAttribute "protocol" cand) +:+ " "
  +:+ JS.str_null (Xml.getAttribute "priority" cand) +:+ " "
  +:+ JS.str_null (Xml.getAttribute "ip" cand) +:+ " "
  +:+ JS.str_null (Xml.getAttribute "port" cand) +:+ " typ "
  +:+ JS.str_null (Xml.getAttribute "type" cand) +:+ " generation "
  +:+ default "0" (Xml.getAttribute "generation" cand) +:+ JS.CRLF.

Definition buildRTPMap (el : Node) : string :=
  "a=rtpmap:" +:+ JS.str_null (Xml.getAttribute "id" el) +:+ " "
  +:+ JS.str_null (Xml.getAttribute "name" el) +:+ "/"
  +:+ JS.str_null (Xml.getAttribute "clockrate" el)
  +:+ match Xml.getAttribute "channels" el with
      | Some ch => if decide (ch = "1") then "" else "/" +:+ ch
      | None => ""
      end.

Fixpoint remove_special (text : string) : string :=
  match text with
  | "" => ""
  | String ch rest =>
      if bool_decide (ch ∈ ["\"; "/"; "{"; ","; "}"; "+"]%char)
      then remove_special rest
      else String ch (remove_special rest)
  end.

Definition parseRTCPFB (line : string) : RtcpFb :=
  let parts := JS.split " " (JS.substring_from 10 line) in
  {| fb_type := parts !! 1; fb_params := drop 2 parts |}.

Definition parseSSRC (mediaItem : string) : list (string * list string) :=
  foldl (λ ssrcs line,
           let id := default "" (head (JS.split " " (JS.substring_from 7 line))) in
           match Xml.assoc_get id ssrcs with
           | Some lines => Xml.assoc_set id (lines ++ [line]) ssrcs
           | None => ssrcs ++ [(id, [line])]
           end)
        [] (SDPUtil.lines_with "a=ssrc:" mediaItem).

Definition parseSSRCGroupLine (line : string) : SSRCGroup :=
  let parts := JS.split " " (JS.substring_from 13 line) in
  {| semantics := head parts; group_ssrcs := tail parts |}.

Definition parseRTPMap (line : option string) : jsobject :=
  match line with
  | Some line =>
      let parts := JS.split " " (JS.substring_from 9 line) in
      let codec := JS.split "/" (default "" (parts !! 1)) in
      [("id", parts !! 0); ("name", codec !! 0); ("clockrate", codec !! 1);
       ("channels", Some (default "1" (codec !! 2)))]
  | None => []
  end.

Definition parseFmtp (line : string) : list jsobject :=
  let params :=
    from_option (λ i, JS.substring_from (S i) line) "" (JS.indexOf " " line) in
  (λ param,
     match JS.indexOf "=" param with
     | Some i => [("name", Some (JS.substr_to i param));
                  ("value", Some (JS.substring_from (S i) param))]
     | None => [("name", None); ("value", Some param)]
     end) <$> JS.split ";" params.

Definition parseExtmap (line : string) : Extmap :=
  let parts := JS.split " " (JS.substring_from 9 line) in
  let value := default "" (parts !! 0) in
  match JS.indexOf "/" value with
  | Some i =>
      {| extmap_value := Some (JS.substr_to i value);
         extmap_direction := Some (JS.substring_from (S i) value);
         extmap_uri := parts !! 1 |}
  | None =>
      {| extmap_value := Some value; extmap_direction := None; extmap_uri := parts !! 1 |}
  end.

Definition parseFingerprint (line : string) : jsobject :=
  let parts := JS.split " " (JS.substring_from 14 line) in
  [("hash", parts !! 0); ("fingerprint", parts !! 1)].

Definition iceparams (mediadesc sessiondesc : string) : option jsobject :=
  match SDPUtil.findLine mediadesc "a=ice-ufrag:" (Some sessiondesc),
        SDPUtil.findLine mediadesc "a=ice-pwd:" (Some sessiondesc) with
  | Some ufrag, Some pwd =>
      Some [("ufrag", Some (JS.substring_from 12 ufrag));
            ("pwd", Some (JS.substring_from 10 pwd))]
  | _, _ => None
  end.

Definition candidateToJingle (line : string) : jsobject :=
  let elems := JS.split " " line in
  [("foundation", JS.substring_from 12 <$> elems !! 0);
   ("component", elems !! 1);
   ("protocol", JS.toLowerCase <$> elems !! 2);
   ("priority", elems !! 3);
   ("ip", elems !! 4);
   ("port", elems !! 5);
   ("type", elems !! 7);
   ("generation", Some "0");
   ("network", Some "1")].

End Wire.

(** Modelled from the spec: a line codec for the attribute-line syntaxes the
    spec lists in its external interfaces (media line, mid, candidate,
    fingerprint, extension mapping, format parameters, feedback, SCTP port
    and map, SSRC, SSRC group).  SDPUtil is not among the sources; the
    examples run the conversions with this codec, and the general
    statements hold for every codec.  The candidate line carries the fields up
    to the type and the generation, and a parsed candidate has no random
    [id]. *)
Definition wire : LineCodec := {|
  parseMID := from_option (JS.substring_from 6) "";
  parseMLine := Wire.parseMLine;
  buildMLine := Wire.buildMLine;
  buildICEUfrag := λ frag, "a=ice-ufrag:" +:+ frag;
  buildICEPwd := λ pwd, "a=ice-pwd:" +:+ pwd;
  candidateFromJingle := Wire.candidateFromJingle;
  buildRTPMap := Wire.buildRTPMap;
  filterSpecialChars := fmap Wire.remove_special;
  parseRTCPFB := Wire.parseRTCPFB;
  parseSSRC := Wire.parseSSRC;
  parseSourceNameLine := Wire.ssrc_param "name";
  parseVideoTypeLine := Wire.ssrc_param "videoType";
  parseMSIDAttribute := Wire.ssrc_param "msid";
  parseSSRCGroupLine := Wire.parseSSRCGroupLine;
  parseRTPMap := Wire.parseRTPMap;
  parseFmtp := Wire.parseFmtp;
  parseExtmap := Wire.parseExtmap;
  parseSCTPPort := JS.substring_from 12;
  parseSCTPMap := λ line, JS.split " " (JS.substring_from 10 line);
  parseFingerprint := Wire.parseFingerprint;
  iceparams := Wire.iceparams;
  candidateToJingle := Wire.candidateToJingle;
  usesRidsForSimulcast := false
|}.

(** ** Adding a media section for a new local source *)

(** The values of the object graph sdp-transform parses a description
    into. *)
#[warnings="-register-all"]
Inductive JsValue : Type :=
| JsUndefined
| JsNumber (n : Z)
| JsString (s : string)
| JsArray (items : list JsValue)
| JsObject (props : list (string * JsValue)).

Global Instance JsValue_inhabited : Inhabited JsValue := populate JsUndefined.

(** A group of the parsed session: [{ type, mids }]. *)
Record Group := mkGroup {
  group_type : string;
  group_mids : string
}.

(** The parsed description: the media sections are objects keyed by
    property name; [groups] is [None] when the description has no group
    line and the property is missing. *)
Record SessionDescription := mkSessionDescription {
  sdp_session : gmap string JsValue;
  sdp_media : list (gmap string JsValue);
  sdp_groups : option (list Group)
}.

(** The sdp-transform package: [transform.parse] and [transform.write]. *)
Class SdpTransform := {
  transform_parse : string → SessionDescription;
  transform_write : SessionDescription → string
}.

Inductive JsError : Type :=
| TypeError (message : string).

(** How a call ends: normally with a value, or by throwing. *)
Inductive Completion (A : Type) : Type :=
| Normal (value : A)
| Throw (error : JsError).
Arguments Normal {A} value.
Arguments Throw {A} error.

(** [m.type === mediaType] on a parsed media section. *)
Definition has_type (mediaType : string) (m : gmap string JsValue) : bool :=
  match m !! "type" with
  | Some (JsString type) => bool_decide (type = mediaType)
  | _ => false
  end.

(** The edit [addMlineForNewLocalSource] makes on the parsed description,
    between [transform.parse] and [transform.write]. *)
Definition addMline_edit (mid : nat) (mediaType : string) (sdp : SessionDescription)
  : Completion SessionDescription :=
  match List.find (has_type mediaType) (sdp_media sdp) with
  | None =>
      (* cloneDeep(undefined) is undefined, and the first assignment fails *)
      Throw (TypeError "Cannot set properties of undefined (setting 'mid')")
  | Some mline =>
      (* Edit media direction, mid and remove the existing ssrc lines in the
         m-line. *)
      let mline := <["mid" := JsNumber (Z.of_nat mid)]> mline in
      let mline := <["direction" := JsString MediaDirection.RECVONLY]> mline in
      let mline := <["msid" := JsUndefined]> mline in
      let mline := <["ssrcs" := JsUndefined]> mline in
      let mline := <["ssrcGroups" := JsUndefined]> mline in
      (* We regenerate the BUNDLE group (since we added a new m-line). *)
      let media := sdp_media sdp ++ [mline] in
      match sdp_groups sdp with
      | None => Throw (TypeError "Cannot read properties of undefined (reading 'forEach')")
      | Some groups =>
          let groups :=
            (λ group,
               if decide (group_type group = "BUNDLE")
               then {| group_type := group_type group;
                       group_mids :=
                         JS.join " " (JS.split " " (group_mids group) ++ [pretty mid]) |}
               else group) <$> groups in
          Normal {| sdp_session := sdp_session sdp;
                    sdp_media := media;
                    sdp_groups := Some groups |}
      end
  end.

(** [this.raw = raw] *)
Definition with_raw (raw : string) (s : SDP) : SDP :=
  {| isP2P := isP2P s;
     media := media s;
     raw := raw;
     session := session s;
     failICE := failICE s;
     removeTcpCandidates := removeTcpCandidates s;
     removeUdpCandidates := removeUdpCandidates s;
     initialLastN := initialLastN s |}.

(** [addMlineForNewLocalSource(mediaType)]: how the call ends and the
    instance after it.  An exception leaves the instance as it was. *)
Definition addMlineForNewLocalSource `{SdpTransform} (mediaType : string) (s : SDP)
  : Completion unit * SDP :=
  let mid := length (media s) in
  let sdp := transform_parse (raw s) in
  match addMline_edit mid mediaType sdp with
  | Throw e => (Throw e, s)
  | Normal sdp => (Normal (), with_raw (transform_write sdp) s)
  end.

(** ** Sample descriptions and stanzas *)

Module Samples.

(** A text from its lines, each with its line terminator. *)
Definition text (l : list string) : string :=
  JS.join "" ((λ x, x +:+ JS.CRLF) <$> l).

(** A builder positioned at the empty [jingle] element of an [iq]. *)
Definition iq : Builder :=
  {| nodeTree := Element "iq" [] [Element "jingle" [] []]; node := [0] |}.

Definition header : list string :=
  ["v=0"; "o=- 1 2 IN IP4 0.0.0.0"; "s=-"; "t=0 0"; "a=group:BUNDLE 0 1"].

Definition audio_section : list string :=
  ["m=audio 9 UDP/TLS/RTP/SAVPF 111"; "a=mid:0"; "a=ice-ufrag:uf"; "a=ice-pwd:pw";
   "a=sendrecv"; "a=rtpmap:111 opus/48000/2"; "a=ssrc:1234 msid:stream track";
   "a=candidate:1 1 udp 2130706431 10.0.0.1 10000 typ host generation 0";
   "a=candidate:2 1 TCP 1010828030 10.0.0.1 443 typ host generation 0"].

Definition video_section : list string :=
  ["m=video 9 UDP/TLS/RTP/SAVPF 100"; "a=mid:1"; "a=recvonly";
   "a=rtpmap:100 VP8/90000"; "a=rtcp-fb:100 nack pli"].

(** A second video section, with port 0 and no bundle-only line. *)
Definition rejected_video_section : list string :=
  ["m=video 0 UDP/TLS/RTP/SAVPF 100"; "a=mid:2"; "a=recvonly"; "a=rtpmap:100 VP8/90000"].

(** An audio section with a candidate and no ICE credentials. *)
Definition bare_audio_section : list string :=
  ["m=audio 9 UDP/TLS/RTP/SAVPF 111"; "a=mid:0";
   "a=candidate:1 1 udp 2130706431 10.0.0.1 10000 typ host generation 0"].

Definition audio_video : string := text (header ++ audio_section ++ video_section).

Definition two_videos : string :=
  text (header ++ video_section ++ rejected_video_section).

Definition bare_audio : string := text (["v=0"; "s=-"] ++ bare_audio_section).

(** The model with the tcp-candidate filter switched on. *)
Definition without_tcp (s : SDP) : SDP :=
  {| isP2P := isP2P s; media := media s; raw := raw s; session := session s;
     failICE := failICE s; removeTcpCandidates := true;
     removeUdpCandidates := removeUdpCandidates s; initialLastN := initialLastN s |}.

(** A payload type with one feedback child. *)
Definition payload_100 : Node :=
  Element "payload-type" [("id", "100"); ("name", "VP8"); ("clockrate", "90000")]
    [Element "rtcp-fb"
       [("xmlns", XEP.RTP_FEEDBACK); ("type", "nack"); ("subtype", "pli")] []].

Definition user_source : Node :=
  Element "source" [("ssrc", "1"); ("xmlns", XEP.SOURCE_ATTRIBUTES)]
    [Element "parameter" [("name", "msid"); ("value", "user-stream track")] []].

Definition mixer_source : Node :=
  Element "source" [("ssrc", "2"); ("xmlns", XEP.SOURCE_ATTRIBUTES)]
    [Element "parameter" [("name", "msid"); ("value", "mixedmslabel mixedlabelvideo0")] []].

(** A video content whose user source is declared before its mixer
    source. *)
Definition video_content : Node :=
  Element "content" [("creator", "initiator"); ("name", "video"); ("senders", "initiator")]
    [Element "description" [("xmlns", XEP.RTP_MEDIA); ("media", "video")]
       [payload_100; user_source; mixer_source];
     Element "transport" [("xmlns", XEP.ICE_UDP_TRANSPORT); ("ufrag", "uf"); ("pwd", "pw")]
       [Element "candidate"
          [("foundation", "1"); ("component", "1"); ("protocol", "udp");
           ("priority", "2130706431"); ("ip", "10.0.0.1"); ("port", "10000");
           ("type", "host")] [];
        Element "candidate"
          [("foundation", "2"); ("component", "1"); ("protocol", "SSLTCP");
           ("priority", "1010828030"); ("ip", "10.0.0.1"); ("port", "443");
           ("type", "host")] []]].

Definition jingle : Node :=
  Element "jingle" [("xmlns", "urn:xmpp:jingle:1")]
    [Element "group" [("xmlns", XEP.BUNDLE_MEDIA); ("semantics", "BUNDLE")]
       [Element "content" [("name", "video")] []];
     video_content].

(** A parsed description with an audio and a video section and a BUNDLE
    group over both. *)
Definition parsed_audio : gmap string JsValue :=
  {[ "type" := JsString "audio"; "mid" := JsNumber 0; "direction" := JsString "sendrecv" ]}.

Definition parsed_video : gmap string JsValue :=
  {[ "type" := JsString "video"; "mid" := JsNumber 1; "direction" := JsString "sendrecv";
     "msid" := JsString "stream track";
     "ssrcs" := JsArray [JsObject [("id", JsNumber 1234); ("attribute", JsString "cname")]] ]}.

Definition parsed_audio_video : SessionDescription :=
  {| sdp_session := {[ "version" := JsNumber 0 ]};
     sdp_media := [parsed_audio; parsed_video];
     sdp_groups := Some [{| group_type := "BUNDLE"; group_mids := "0 1" |}] |}.

Definition parsed_audio_only : SessionDescription :=
  {| sdp_session := {[ "version" := JsNumber 0 ]};
     sdp_media := [parsed_audio];
     sdp_groups := Some [{| group_type := "BUNDLE"; group_mids := "0" |}] |}.

(** A stand-in for sdp-transform that reads every text as the given parsed
    description and writes the number of sections. *)
Definition reads_as (sdp : SessionDescription) : SdpTransform :=
  {| transform_parse := λ _, sdp;
     transform_write := λ sdp, "sections:" +:+ pretty (length (sdp_media sdp)) |}.

End Samples.

(** ** Notions used in the statements *)

Section statement_notions.
Context `{LineCodec}.

(** The lines written for one parameter of a source. *)
Definition parameter_line (ssrc : option string) (parameter : Node) : string :=
  let value := filterSpecialChars (Xml.getAttribute "value" parameter) in
  ("a=ssrc:" +:+ JS.str_null ssrc +:+ " "
   +:+ JS.str_null (Xml.getAttribute "name" parameter))
  +:+ match value with
      | Some v => if JS.truthy v then ":" +:+ v else ""
      | None => ""
      end
  +:+ JS.CRLF.

(** A parameter marks its source as a mixer source when its value, as it is
    written on the line, contains the mixer label. *)
Definition mixer_parameter (parameter : Node) : bool :=
  match filterSpecialChars (Xml.getAttribute "value" parameter) with
  | Some v => JS.includes "mixedmslabel" v
  | None => false
  end.

(** The lines written for one source element, parameter by parameter. *)
Definition source_text (source : Node) : string :=
  JS.join "" (parameter_line (Xml.getAttribute "ssrc" source)
                <$> JQ.find_child "parameter" [source]).

(** A source is a mixer (non-user) source when one of its parameters marks
    it. *)
Definition mixer_source (source : Node) : bool :=
  existsb mixer_parameter (JQ.find_child "parameter" [source]).

(** The [source] children of the content's description. *)
Definition content_sources (content : Node) : list Node :=
  JQ.find_child_ns "source" XEP.SOURCE_ATTRIBUTES (JQ.find_child "description" [content]).

(** What a run of builder calls does to the element under the cursor: its
    attributes are mapped by [fa] and the nodes [cs] are appended to its
    children. *)
Definition extend (fa : list (string * string) → list (string * string)) (cs : list Node)
  (n : Node) : Node :=
  match n with
  | Element tg a ch => Element tg (fa a) (ch ++ cs)
  | TextNode _ => n
  end.

(** The calls [prog] leave the cursor where it was and act on the element
    under it as [extend fa cs]. *)
Definition acts (prog : Builder → Builder) (fa : list (string * string) → list (string * string))
  (cs : list Node) : Prop :=
  ∀ b, prog b = Strophe.at_cursor (extend fa cs) b.

(** The attributes [Strophe.xmlElement] sets from an attribute object. *)
Definition obj_attrs (attrs : jsobject) : list (string * string) :=
  Xml.attributes_of (Strophe.xmlElement "" attrs).

(** The attributes after [elem.attrs(moreattrs)]. *)
Definition attrs_after (moreattrs : jsobject) (a : list (string * string))
  : list (string * string) :=
  Xml.attributes_of (Strophe.set_attrs moreattrs (Element "" a [])).

(** A content element made by the converter: it carries a [creator]. *)
Definition is_created (n : Node) : bool :=
  Xml.is_element "content" n && Xml.hasAttribute "creator" n.

(** A content element of the given name made by the converter. *)
Definition created_named (name : string) (n : Node) : bool :=
  content_named name n && Xml.hasAttribute "creator" n.

(** Neither the node nor anything below it is a content element made by the
    converter. *)
Definition clean (n : Node) : Prop :=
  is_created n = false ∧ Xml.count_desc is_created n = 0.

(** The builder is positioned at an element of its tree. *)
Definition positioned (b : Builder) : Prop :=
  ∃ tg a cs, Xml.get_at (node b) (nodeTree b) = Some (Element tg a cs).

(** A test on nodes that looks at the tag and the attributes only. *)
Definition head_test (P : Node → bool) : Prop :=
  ∀ n n', Xml.tagName n = Xml.tagName n' → Xml.attributes_of n = Xml.attributes_of n' → P n = P n'.

(** The calls append nodes under the cursor, none of them or of their
    descendants a content made by the converter, and change nothing else. *)
Definition appends (prog : Builder → Builder) : Prop :=
  ∃ cs, acts prog id cs ∧ Forall clean cs.

(** The calls change the attributes of the element under the cursor and
    append such nodes under it. *)
Definition modifies (prog : Builder → Builder) : Prop :=
  ∃ fa cs, acts prog fa cs ∧ Forall clean cs.

(** The senders value the direction markers of a section stand for, in the
    order the converter looks for them. *)
Definition senders_of_direction (mediaItem : string) : option string :=
  if bool_decide (is_Some (SDPUtil.findLine mediaItem ("a=" +:+ MediaDirection.SENDRECV) None))
  then Some "both"
  else if bool_decide
            (is_Some (SDPUtil.findLine mediaItem ("a=" +:+ MediaDirection.SENDONLY) None))
  then Some "initiator"
  else if bool_decide
            (is_Some (SDPUtil.findLine mediaItem ("a=" +:+ MediaDirection.RECVONLY) None))
  then Some "responder"
  else if bool_decide
            (is_Some (SDPUtil.findLine mediaItem ("a=" +:+ MediaDirection.INACTIVE) None))
  then Some "none"
  else None.

(** The senders attribute of the content element a section makes. *)
Definition content_senders (s : SDP) (mediaItem : string) : option string :=
  if is_rejected s mediaItem then Some "rejected" else senders_of_direction mediaItem.

(** The name of the content element a section makes. *)
Definition content_name (s : SDP) (mediaItem : string) : string :=
  if isP2P s then parseMID (SDPUtil.findLine mediaItem "a=mid:" None)
  else resolved_type mediaItem.

(** The attributes of the content element a section makes. *)
Definition content_attrs (s : SDP) (thecreator : string) (mediaItem : string)
  : list (string * string) :=
  [("creator", thecreator); ("name", content_name s mediaItem)]
  ++ match content_senders s mediaItem with
     | Some senders => [("senders", senders)]
     | None => []
     end.

(** Neither the node nor anything below it satisfies [P]. *)
Definition free (P : Node → bool) (n : Node) : Prop :=
  P n = false ∧ Xml.count_desc P n = 0.

(** An element with one of the two tags of the source attributes. *)
Definition source_or_group (n : Node) : bool :=
  Xml.is_element "source" n || Xml.is_element "ssrc-group" n.

(** The candidate children of the content's transport. *)
Definition content_candidates (content : Node) : list Node :=
  JQ.find_child "candidate"
    (JQ.find_child_ns "transport" XEP.ICE_UDP_TRANSPORT [content]).

(** The protocol token of a stanza candidate, in lower case. *)
Definition stanza_protocol (candidate : Node) : string :=
  from_option JS.toLowerCase "" (Xml.getAttribute "protocol" candidate).

(** The protocol token of a parsed candidate, in lower case. *)
Definition parsed_protocol (candidate : jsobject) : string :=
  from_option JS.toLowerCase "" (mjoin (Xml.assoc_get "protocol" candidate)).

(** The candidate element as [jingle2media] hands it to the codec. *)
Definition stamped_candidate (s : SDP) (candidate : Node) : Node :=
  if failICE s then Xml.setAttribute "ip" "1.1.1.1" candidate else candidate.

(** The candidate object as [transportToJingle] hands it to the builder. *)
Definition stamped_object (s : SDP) (candidate : jsobject) : jsobject :=
  if failICE s then Xml.assoc_set "ip" (Some "1.1.1.1") candidate else candidate.

(** The candidate children [transportToJingle] appends for the candidate
    lines of a section. *)
Definition candidate_elements (s : SDP) (candidateLines : list string) : list Node :=
  (λ line, Element "candidate" (obj_attrs (stamped_object s (candidateToJingle line))) [])
  <$> filter (λ line,
                candidate_removed s (parsed_protocol (stamped_object s (candidateToJingle line)))
                = false)
             candidateLines.

(** A content element whose senders attribute has the given value. *)
Definition content_with_senders (senders : string) (n : Node) : bool :=
  Xml.is_element "content" n && bool_decide (Xml.getAttribute "senders" n = Some senders).

(** The section has the receive-only marker and neither the send-receive
    nor the send-only one. *)
Definition only_recvonly (mediaItem : string) : Prop :=
  SDPUtil.findLine mediaItem ("a=" +:+ MediaDirection.SENDRECV) None = None
  ∧ SDPUtil.findLine mediaItem ("a=" +:+ MediaDirection.SENDONLY) None = None
  ∧ is_Some (SDPUtil.findLine mediaItem ("a=" +:+ MediaDirection.RECVONLY) None).

(** The properties [addMlineForNewLocalSource] assigns on the cloned
    section. *)
Definition edited_properties : list string :=
  ["mid"; "direction"; "msid"; "ssrcs"; "ssrcGroups"].

(** A group after the edit: a BUNDLE group has the new mid appended to its
    mids, after a blank; any other group is as it was. *)
Definition group_after (mid : nat) (g g' : Group) : Prop :=
  if decide (group_type g = "BUNDLE")
  then group_type g' = "BUNDLE" ∧ group_mids g' = group_mids g +:+ " " +:+ pretty mid
  else g' = g.

End statement_notions.


(** ** Sample models *)

Module SampleModels.

(** The model of the audio and video description. *)
Definition audio_video : SDP := constructor Samples.audio_video false.

(** The model of the description with two video sections, the second with
    port 0. *)
Definition two_videos : SDP := constructor Samples.two_videos false.

(** The same description on a direct connection. *)
Definition two_videos_p2p : SDP := constructor Samples.two_videos true.

(** A model whose only section has a udp candidate and no ICE credentials,
    with the tcp filter on. *)
Definition bare_audio_without_tcp : SDP :=
  Samples.without_tcp (constructor Samples.bare_audio false).

(** A model constructed from a description, before a stanza is converted
    into it. *)
Definition bare_audio : SDP := constructor Samples.bare_audio false.

(** The model for stanza conversion: constructed from the empty text. *)
Definition empty : SDP := constructor "" false.

End SampleModels.
(** ** Facts about strings *)

Section string_facts.

Lemma str_app_cons (a : ascii) (s t : string) : String a s +:+ t = String a (s +:+ t).
Proof. reflexivity. Qed.

Lemma str_app_nil_l (s : string) : "" +:+ s = s.
Proof. reflexivity. Qed.

Lemma str_app_nil_r (s : string) : s +:+ "" = s.
Proof. induction s as [|a s IH]; [done|]. by rewrite str_app_cons, IH. Qed.

Lemma str_app_assoc (s t u : string) : (s +:+ t) +:+ u = s +:+ t +:+ u.
Proof. induction s as [|a s IH]; [done|]. by rewrite !str_app_cons, IH. Qed.

Lemma str_app_length (s t : string) :
  String.length (s +:+ t) = String.length s + String.length t.
Proof. induction s as [|a s IH]; [done|]. rewrite str_app_cons. simpl. by rewrite IH. Qed.

Lemma startsWith_app (p r : string) : JS.startsWith p (p +:+ r) = true.
Proof.
  induction p as [|a p IH]; [done|].
  rewrite str_app_cons. simpl. by rewrite decide_True.
Qed.

Lemma startsWith_inv (p s : string) :
  JS.startsWith p s = true → ∃ r, s = p +:+ r.
Proof.
  revert s. induction p as [|a p IH]; intros s H.
  - by exists s.
  - destruct s as [|b s]; [done|]. simpl in H.
    destruct (decide (a = b)) as [->|]; [|done].
    destruct (IH _ H) as [r ->]. by exists r.
Qed.

Lemma substring_from_app (p r : string) :
  JS.substring_from (String.length p) (p +:+ r) = r.
Proof. induction p as [|a p IH]; [by destruct r|]. by rewrite str_app_cons. Qed.

End string_facts.

(** ** [split] and [join] *)

Section split_facts.

Variable sep : string.
Hypothesis sep_nonempty : sep ≠ "".

Lemma split_go_skip (skip : nat) (cur s : string) :
  skip ≤ String.length s →
  JS.split_go sep skip cur s = JS.split_go sep 0 cur (JS.substring_from skip s).
Proof.
  revert skip. induction s as [|ch s IH]; intros [|k] Hk; simpl in *; try done; try lia.
  apply IH. lia.
Qed.

Lemma split_go_sep (cur r : string) :
  JS.split_go sep 0 cur (sep +:+ r) = cur :: JS.split_go sep 0 "" r.
Proof using sep_nonempty.
  assert (∃ a sep', sep = String a sep') as (a & sep' & E)
    by (destruct sep; [done|eauto]).
  assert (sep +:+ r = String a (sep' +:+ r)) as Hs by (by rewrite E).
  rewrite Hs. cbn [JS.split_go]. rewrite <- Hs, startsWith_app. f_equal.
  assert (String.length sep - 1 = String.length sep') as ->
    by (rewrite E; simpl; lia).
  rewrite split_go_skip by (rewrite str_app_length; lia).
  by rewrite substring_from_app.
Qed.

Lemma split_go_cons (skip : nat) (cur s : string) :
  ∃ x l, JS.split_go sep skip cur s = x :: l.
Proof.
  revert skip cur. induction s as [|ch s IH]; intros skip cur; simpl; [by eauto|].
  destruct skip; [|done]. case_match; eauto.
Qed.

Lemma join_split_go (cur s : string) :
  JS.join sep (JS.split_go sep 0 cur s) = cur +:+ s.
Proof using sep_nonempty.
  remember (String.length s) as n eqn:Hn.
  revert cur s Hn. induction (lt_wf n) as [n _ IH]; intros cur s ->.
  destruct s as [|ch s]; [done|].
  destruct (JS.startsWith sep (String ch s)) eqn:Hp.
  - destruct (startsWith_inv _ _ Hp) as [r Hr]. rewrite Hr, split_go_sep.
    destruct (split_go_cons 0 "" r) as (x & l & Hx).
    assert (JS.join sep (JS.split_go sep 0 "" r) = r) as Hj.
    { eapply (IH (String.length r)); [|done].
      rewrite Hr, str_app_length. destruct sep; [done|]. simpl. lia. }
    rewrite Hx in *. unfold JS.join in *. cbn [foldr]. by rewrite Hj.
  - cbn [JS.split_go]. rewrite Hp.
    erewrite (IH (String.length s)); [|simpl; lia|done].
    by rewrite str_app_assoc.
Qed.

Lemma split_go_absent (cur s : string) :
  JS.includes sep s = false → JS.split_go sep 0 cur s = [cur +:+ s].
Proof.
  revert cur. induction s as [|ch s IH]; intros cur H.
  - by rewrite str_app_nil_r.
  - cbn [JS.includes] in H. apply orb_false_elim in H as [H1 H2].
    cbn [JS.split_go]. rewrite H1, IH by done. by rewrite str_app_assoc.
Qed.

Lemma split_go_present (cur s : string) :
  JS.includes sep s = true → ∃ x y l, JS.split_go sep 0 cur s = x :: y :: l.
Proof using sep_nonempty.
  revert cur. induction s as [|ch s IH]; intros cur H.
  - destruct sep; done.
  - cbn [JS.includes] in H. cbn [JS.split_go].
    destruct (JS.startsWith sep (String ch s)) eqn:Hp.
    + destruct (split_go_cons (String.length sep - 1) "" s) as (y & l & ->). eauto.
    + by apply IH.
Qed.

End split_facts.

Lemma join_empty_cons (a : string) (l : list string) :
  JS.join "" (a :: l) = a +:+ JS.join "" l.
Proof. destruct l; [done|]. reflexivity. Qed.

(** The sections the constructor rebuilds: every piece after the first gets
    its [m=] back, and every piece but the last its line terminator. *)
Lemma constructor_sections (t : list string) (k N : nat) :
  k + length t = N → t ≠ [] →
  JS.CRLF +:+ JS.join ""
    (imap (λ j x, if decide (S (k + j) ≠ N) then ("m=" +:+ x) +:+ JS.CRLF else "m=" +:+ x) t)
  = foldr (λ y acc, (JS.CRLF +:+ "m=") +:+ y +:+ acc) "" t.
Proof.
  revert k. induction t as [|x [|y r] IH]; intros k HN Hne; [done|..].
  - simpl in *. rewrite decide_False by lia. by rewrite !str_app_assoc.
  - rewrite imap_cons, join_empty_cons.
    change (foldr ?f "" (x :: y :: r)) with (f x (foldr f "" (y :: r))).
    rewrite <- (IH (S k)) by (simpl in *; done || lia).
    rewrite decide_True by (simpl in *; lia).
    rewrite !str_app_assoc. do 5 f_equal.
    apply imap_ext. intros j z _. simpl. by replace (k + S j) with (S (k + j)) by lia.
Qed.

(** C10.  Constructing the model from a description text and reading [raw]
    back: a text that contains a media-section delimiter (a line terminator
    followed by [m=]) is returned unchanged, character for character; a text
    without one comes back with one line terminator appended. *)
Theorem constructor_raw_roundtrip (sdp : string) (p2p : bool) :
  raw (constructor sdp p2p)
  = if JS.includes (JS.CRLF +:+ "m=") sdp then sdp else sdp +:+ JS.CRLF.
Proof.
  unfold constructor. cbn [raw].
  change (JS.split (JS.CRLF +:+ "m=") sdp)
    with (JS.split_go (JS.CRLF +:+ "m=") 0 "" sdp).
  assert (JS.CRLF +:+ "m=" ≠ "") as Hsep by done.
  destruct (JS.includes (JS.CRLF +:+ "m=") sdp) eqn:Hinc.
  - pose proof (join_split_go _ Hsep "" sdp) as Hj.
    destruct (split_go_present _ Hsep "" sdp Hinc) as (x & y & l & Hx).
    rewrite Hx in *. rewrite imap_cons. cbn [head tail JS.str_undefined default].
    rewrite str_app_assoc. rewrite str_app_nil_l in Hj.
    etrans; [|exact Hj]. unfold JS.join at 2. change (id x) with x. f_equal.
    rewrite <- (constructor_sections (y :: l) 0 (length (y :: l))) by done.
    reflexivity.
  - rewrite (split_go_absent _ "" sdp Hinc). cbn. by rewrite str_app_nil_r.
Qed.

(** ** The SSRC inventory *)

Section inventory_facts.
Context `{LineCodec}.

Lemma getMediaSsrcMap_lookup (s : SDP) (m : nat) :
  getMediaSsrcMap s !! m = media_ssrc_entry m <$> media s !! m.
Proof.
  unfold getMediaSsrcMap. induction (media s) as [|x l IH] using rev_ind; [done|].
  rewrite imap_app, foldl_app. cbn [imap foldl fst snd].
  rewrite Nat.add_0_r. destruct (decide (length l = m)) as [<-|Hne].
  - rewrite lookup_insert_eq, lookup_app_r, Nat.sub_diag by done. done.
  - rewrite lookup_insert_ne, IH by done.
    destruct (decide (m < length l)).
    + by rewrite lookup_app_l.
    + rewrite !lookup_ge_None_2; [done|rewrite length_app; simpl; lia|lia].
Qed.

Lemma containsSSRC_true (s : SDP) (x : string) :
  containsSSRC s x = true ↔
  ∃ m entry, getMediaSsrcMap s !! m = Some entry ∧ is_Some (ssrcs entry !! x).
Proof.
  unfold containsSSRC. rewrite existsb_exists. split.
  - intros (entry & Hin & Hx). apply list_elem_of_In, list_elem_of_fmap in Hin.
    destruct Hin as ([m e] & -> & Hm). apply elem_of_map_to_list in Hm.
    exists m, e. split; [done|]. by apply bool_decide_eq_true in Hx.
  - intros (m & entry & Hm & Hx). exists entry. split.
    + apply list_elem_of_In, list_elem_of_fmap. exists (m, entry). split; [done|].
      by apply elem_of_map_to_list.
    + by apply bool_decide_eq_true.
Qed.


(** The same in terms of the sections: [containsSSRC] holds exactly of the
    identifiers gathered from the [a=ssrc:] lines of some section. *)
Lemma containsSSRC_sections (s : SDP) (x : string) :
  containsSSRC s x = true ↔
  ∃ m mediaItem, media s !! m = Some mediaItem ∧ is_Some (collect_ssrcs mediaItem !! x).
Proof.
  rewrite containsSSRC_true. split.
  - intros (m & entry & Hm & Hx). rewrite getMediaSsrcMap_lookup in Hm.
    destruct (media s !! m) as [mediaItem|] eqn:E; [|done].
    injection Hm as <-. eauto.
  - intros (m & mediaItem & Hm & Hx). exists m, (media_ssrc_entry m mediaItem).
    by rewrite getMediaSsrcMap_lookup, Hm.
Qed.

End inventory_facts.

(** ** Stanza to description: sources and candidates *)

Section from_jingle_facts.
Context `{LineCodec}.

Lemma source_lines_fold (ssrc : option string) (params : list Node) (str : string) (user : bool) :
  foldl (λ '(sourceStr, isUserSource) parameter,
           let name := Xml.getAttribute "name" parameter in
           let value := Xml.getAttribute "value" parameter in
           let value := filterSpecialChars value in
           let sourceStr :=
             sourceStr +:+ "a=ssrc:" +:+ JS.str_null ssrc +:+ " " +:+ JS.str_null name in
           let sourceStr :=
             match value with
             | Some v => if JS.truthy v then sourceStr +:+ ":" +:+ v else sourceStr
             | None => sourceStr
             end in
           let sourceStr := sourceStr +:+ JS.CRLF in
           let isUserSource :=
             match value with
             | Some v => if JS.includes "mixedmslabel" v then false else isUserSource
             | None => isUserSource
             end in
           (sourceStr, isUserSource))
        (str, user) params
  = (str +:+ JS.join "" (parameter_line ssrc <$> params),
     user && negb (existsb mixer_parameter params)).
Proof.
  revert str user. induction params as [|p params IH]; intros str user.
  - cbn. by rewrite str_app_nil_r, andb_true_r.
  - cbn [foldl]. rewrite IH. rewrite fmap_cons, join_empty_cons. cbn [existsb].
    unfold parameter_line at 2, mixer_parameter at 2.
    destruct (filterSpecialChars (Xml.getAttribute "value" p)) as [v|];
      [destruct (JS.truthy v), (JS.includes "mixedmslabel" v)|];
      rewrite ?str_app_assoc, ?str_app_nil_l; cbn; f_equal; by destruct user.
Qed.

Lemma source_lines_spec (source : Node) :
  source_lines source
  = (JS.join "" (parameter_line (Xml.getAttribute "ssrc" source)
                   <$> JQ.find_child "parameter" [source]),
     negb (existsb mixer_parameter (JQ.find_child "parameter" [source]))).
Proof. unfold source_lines. by rewrite source_lines_fold. Qed.

Lemma jingle2media_sources_fold (srcs : list Node) (u n : string) :
  foldl (λ '(userSources, nonUserSources) source,
           let '(sourceStr, isUserSource) := source_lines source in
           if isUserSource
           then (userSources +:+ sourceStr, nonUserSources)
           else (userSources, nonUserSources +:+ sourceStr))
        (u, n) srcs
  = (u +:+ JS.join "" ((λ x, (source_lines x).1) <$> filter (λ x, (source_lines x).2 = true) srcs),
     n +:+ JS.join "" ((λ x, (source_lines x).1) <$> filter (λ x, (source_lines x).2 = false) srcs)).
Proof.
  revert u n. induction srcs as [|x srcs IH]; intros u n.
  - cbn. by rewrite !str_app_nil_r.
  - cbn [foldl]. destruct (source_lines x) as [str [|]] eqn:E; rewrite IH.
    + rewrite filter_cons_True, filter_cons_False by (rewrite E; done).
      by rewrite fmap_cons, join_empty_cons, E, str_app_assoc.
    + rewrite filter_cons_False, filter_cons_True by (rewrite E; done).
      by rewrite fmap_cons, join_empty_cons, E, str_app_assoc.
Qed.

End from_jingle_facts.

Section from_jingle_claims.
Context `{LineCodec}.

(** C5.  The media section [jingle2media] builds ends with the lines of the
    mixer (non-user) sources, all of them, followed by the lines of the user
    sources, whatever the order of the source elements in the stanza; each
    kind keeps its order of declaration. *)
Theorem jingle2media_mixer_sources_first (s : SDP) (content : Node) :
  jingle2media s content
  = jingle2media_head s content
    +:+ JS.join "" (source_text <$> filter (λ x, mixer_source x = true) (content_sources content))
    +:+ JS.join "" (source_text <$> filter (λ x, mixer_source x = false) (content_sources content)).
Proof.
  unfold jingle2media, jingle2media_sources. rewrite jingle2media_sources_fold.
  rewrite !str_app_nil_l. f_equal. unfold content_sources.
  set (srcs := JQ.find_child_ns _ _ _).
  f_equal; f_equal.
  - etrans; [apply list_fmap_ext|f_equal; apply list_filter_iff].
    + intros _ x _. by rewrite source_lines_spec.
    + intros x. rewrite source_lines_spec. cbn. unfold mixer_source.
      by destruct (existsb _ _).
  - etrans; [apply list_fmap_ext|f_equal; apply list_filter_iff].
    + intros _ x _. by rewrite source_lines_spec.
    + intros x. rewrite source_lines_spec. cbn. unfold mixer_source.
      by destruct (existsb _ _).
Qed.

End from_jingle_claims.

(** ** Trees, paths and the builder *)

Section tree_facts.

Lemma update_at_app (p q : list nat) (f : Node → Node) (t : Node) :
  Xml.update_at (p ++ q) f t = Xml.update_at p (Xml.update_at q f) t.
Proof.
  revert t. induction p as [|i p IH]; intros t; [done|].
  destruct t as [tg a cs|]; [|done]. cbn. f_equal.
  apply list_alter_ext; [|done]. intros x _. apply IH.
Qed.

Lemma update_at_compose (p : list nat) (f g : Node → Node) (t : Node) :
  Xml.update_at p g (Xml.update_at p f t) = Xml.update_at p (g ∘ f) t.
Proof.
  revert t. induction p as [|i p IH]; intros t; [done|].
  destruct t as [tg a cs|]; [|done]. cbn. f_equal.
  rewrite list_alter_alter_eq. apply list_alter_ext; [|done]. intros x _. apply IH.
Qed.

Lemma update_at_ext (p : list nat) (f g : Node → Node) (t : Node) :
  (∀ n, Xml.get_at p t = Some n → f n = g n) →
  Xml.update_at p f t = Xml.update_at p g t.
Proof.
  revert t. induction p as [|i p IH]; intros t Hfg; [by apply Hfg|].
  destruct t as [tg a cs|]; [|done]. cbn. f_equal.
  apply list_alter_ext; [|done]. intros x Hx. apply IH. intros n Hn.
  apply Hfg. cbn. by rewrite Hx.
Qed.

Lemma update_at_none (p : list nat) (f : Node → Node) (t : Node) :
  Xml.get_at p t = None → Xml.update_at p f t = t.
Proof.
  revert t. induction p as [|i p IH]; intros t Hp; [done|].
  destruct t as [tg a cs|]; [|done]. cbn in *. f_equal.
  destruct (cs !! i) as [x|] eqn:Hx.
  - rewrite <- (list_alter_id id cs i) at 2 by done.
    apply list_alter_ext; [|done]. intros y Hy. rewrite Hx in Hy. injection Hy as <-.
    by apply IH.
  - revert i Hx. clear. induction cs as [|c cs IH]; intros [|i] Hx; try done.
    cbn. f_equal. by apply IH.
Qed.

Lemma get_at_update_at (p : list nat) (f : Node → Node) (t : Node) :
  Xml.get_at p (Xml.update_at p f t) = f <$> Xml.get_at p t.
Proof.
  revert t. induction p as [|i p IH]; intros t; [done|].
  destruct t as [tg a cs|]; [|done]. cbn.
  rewrite list_lookup_alter_eq. destruct (cs !! i); cbn; [apply IH|done].
Qed.

Lemma get_at_app (p q : list nat) (t : Node) :
  Xml.get_at (p ++ q) t = Xml.get_at p t ≫= Xml.get_at q.
Proof.
  revert t. induction p as [|i p IH]; intros t; [done|].
  cbn. destruct (Xml.childNodes t !! i); cbn; [apply IH|done].
Qed.

(** Appending a child and then acting on it is appending the child acted
    upon. *)
Lemma update_child_appended (p : list nat) (g : Node → Node) (e : Node) (t : Node) :
  let idx := length (default [] (Xml.childNodes <$> Xml.get_at p t)) in
  Xml.update_at (p ++ [idx]) g (Xml.update_at p (Xml.appendChild e) t)
  = Xml.update_at p (Xml.appendChild (g e)) t.
Proof.
  intros idx. rewrite update_at_app, update_at_compose.
  apply update_at_ext. intros n Hn. subst idx. rewrite Hn. cbn.
  destruct n as [tg a cs|]; [|done]. cbn. f_equal.
  rewrite <- (Nat.add_0_r (length cs)). by rewrite alter_app_r.
Qed.

End tree_facts.

Section builder_facts.

Lemma extend_compose fa1 cs1 fa2 cs2 (n : Node) :
  extend fa2 cs2 (extend fa1 cs1 n) = extend (fa2 ∘ fa1) (cs1 ++ cs2) n.
Proof. destruct n; [|done]. cbn. by rewrite <- (assoc_L (++)). Qed.

Lemma extend_id (n : Node) : extend id [] n = n.
Proof. destruct n; [|done]. cbn. by rewrite app_nil_r. Qed.

Lemma update_at_id (p : list nat) (f : Node → Node) (t : Node) :
  (∀ n, f n = n) → Xml.update_at p f t = t.
Proof.
  intros Hf. revert t. induction p as [|i p IH]; intros t; [done|].
  destruct t as [tg a cs|]; [|done]. cbn. f_equal. by apply list_alter_id.
Qed.

Lemma at_cursor_id (b : Builder) : Strophe.at_cursor (extend id []) b = b.
Proof.
  destruct b as [t p]. unfold Strophe.at_cursor. cbn. f_equal.
  apply update_at_id, extend_id.
Qed.

Lemma xmlElement_attrs (name : string) (attrs : jsobject) :
  Strophe.xmlElement name attrs = Element name (obj_attrs attrs) [].
Proof.
  unfold obj_attrs, Strophe.xmlElement.
  generalize (@nil (string * string)). induction attrs as [|[k [v|]] attrs IH]; intros a; cbn;
    [done|apply IH..].
Qed.

Lemma set_attrs_extend (moreattrs : jsobject) (n : Node) :
  Strophe.set_attrs moreattrs n = extend (attrs_after moreattrs) [] n.
Proof.
  destruct n as [tg a cs|].
  - cbn. rewrite app_nil_r. unfold attrs_after, Strophe.set_attrs.
    revert a. induction moreattrs as [|[k [v|]] m IH]; intros a; cbn; [done|apply IH..].
  - unfold Strophe.set_attrs. induction moreattrs as [|[k [v|]] m IH]; cbn; done.
Qed.

Lemma acts_skip : acts skip id [].
Proof. intros b. by rewrite at_cursor_id. Qed.

Lemma acts_attrs (moreattrs : jsobject) :
  acts (Strophe.attrs moreattrs) (attrs_after moreattrs) [].
Proof.
  intros b. unfold Strophe.attrs, Strophe.at_cursor. f_equal.
  apply update_at_ext. intros n _. apply set_attrs_extend.
Qed.

Lemma acts_t (text : string) : acts (Strophe.t text) id [TextNode text].
Proof.
  intros b. reflexivity.
Qed.

Lemma acts_seq f g fa1 cs1 fa2 cs2 :
  acts f fa1 cs1 → acts g fa2 cs2 → acts (f >> g) (fa2 ∘ fa1) (cs1 ++ cs2).
Proof.
  intros Hf Hg b. unfold seq. rewrite Hg, Hf. unfold Strophe.at_cursor. cbn. f_equal.
  rewrite update_at_compose. apply update_at_ext. intros n _. apply extend_compose.
Qed.

Lemma acts_block name attrs body fa cs :
  acts body fa cs →
  acts (block name attrs body) id [Element name (fa (obj_attrs attrs)) cs].
Proof.
  intros Hb b. unfold block, seq. rewrite Hb. unfold Strophe.c, Strophe.up, Strophe.at_cursor.
  cbn. rewrite removelast_last. f_equal.
  rewrite update_child_appended, xmlElement_attrs.
  apply update_at_ext. intros [] _; done.
Qed.

Lemma acts_when (cond : bool) body cs :
  acts body id cs → acts (when cond body) id (if cond then cs else []).
Proof. destruct cond; [done|]. intros _. apply acts_skip. Qed.

Lemma acts_forEach {A} (l : list A) (body : A → Builder → Builder) (kids : A → list Node) :
  (∀ x, acts (body x) id (kids x)) → acts (forEach l body) id (l ≫= kids).
Proof.
  intros Hbody. induction l as [|x l IH] using rev_ind.
  - apply acts_skip.
  - intros b. unfold forEach in *. rewrite foldl_app. cbn. rewrite Hbody, IH.
    rewrite bind_app. cbn. rewrite app_nil_r.
    unfold Strophe.at_cursor. cbn. f_equal. rewrite update_at_compose.
    apply update_at_ext. intros n _. apply extend_compose.
Qed.

Lemma acts_ext f fa cs fa' cs' :
  acts f fa cs → fa = fa' → cs = cs' → acts f fa' cs'.
Proof. by intros ? <- <-. Qed.

End builder_facts.

(** ** Counting and finding descendants *)

Section descendant_facts.

Lemma Node_induction (Q : Node → Prop) :
  (∀ tg a cs, Forall Q cs → Q (Element tg a cs)) →
  (∀ s, Q (TextNode s)) →
  ∀ n, Q n.
Proof.
  intros Helem Htext. fix IH 1. intros [tg a cs|s]; [|apply Htext].
  apply Helem. induction cs as [|c cs IHcs]; constructor; [apply IH|apply IHcs].
Qed.

Lemma count_desc_element (P : Node → bool) tg a cs :
  Xml.count_desc P (Element tg a cs)
  = sum_list_with (λ c, (if P c then 1 else 0) + Xml.count_desc P c) cs.
Proof. induction cs as [|c cs IH]; [done|]. cbn in *. by rewrite IH. Qed.

Lemma count_desc_extend (P : Node → bool) fa cs (n : Node) :
  Xml.count_desc P (extend fa cs n)
  = Xml.count_desc P n
    + match n with
      | Element _ _ _ => sum_list_with (λ c, (if P c then 1 else 0) + Xml.count_desc P c) cs
      | TextNode _ => 0
      end.
Proof.
  destruct n as [tg a ch|]; [|done]. cbn [extend].
  by rewrite !count_desc_element, sum_list_with_app.
Qed.

Lemma head_test_update_at (P : Node → bool) p f t n :
  head_test P → Xml.get_at p t = Some n → P (f n) = P n →
  P (Xml.update_at p f t) = P t.
Proof.
  intros HP Hn Hf. destruct p as [|i p]; [by injection Hn as ->|].
  destruct t; [|done]. by apply HP.
Qed.

Lemma count_desc_update_at (P : Node → bool) p f t n :
  head_test P → Xml.get_at p t = Some n → P (f n) = P n →
  Xml.count_desc P (Xml.update_at p f t) + Xml.count_desc P n
  = Xml.count_desc P t + Xml.count_desc P (f n).
Proof.
  intros HP. revert t. induction p as [|i p IH]; intros t Hn Hf.
  - injection Hn as ->. cbn. lia.
  - destruct t as [tg a cs|]; [|done]. cbn in Hn.
    destruct (cs !! i) as [c|] eqn:Hc; [|done]. cbn in Hn.
    cbn [Xml.update_at]. rewrite !count_desc_element.
    rewrite <- (take_drop_middle cs i c Hc).
    assert (length (take i cs) = i) as Hlen
      by (rewrite length_take; apply lookup_lt_Some in Hc; lia).
    rewrite <- Hlen at 1. rewrite <- (Nat.add_0_r (length (take i cs))), alter_app_r.
    cbn [alter list_alter]. rewrite !sum_list_with_app. cbn [sum_list_with].
    rewrite (head_test_update_at P p f c n) by done.
    specialize (IH c Hn Hf). lia.
Qed.

Lemma count_desc_pos (P : Node → bool) q t n :
  q ≠ [] → Xml.get_at q t = Some n → P n = true → 0 < Xml.count_desc P t.
Proof.
  revert t. induction q as [|i q IH]; intros t Hq Hn HP; [done|].
  destruct t as [tg a cs|]; [|done]. cbn in Hn.
  destruct (cs !! i) as [c|] eqn:Hc; [|done]. cbn in Hn.
  rewrite count_desc_element.
  eapply Nat.lt_le_trans;
    [|apply (sum_list_with_in c); by eapply list_elem_of_lookup_2].
  destruct q as [|j q].
  - injection Hn as ->. rewrite HP. lia.
  - assert (0 < Xml.count_desc P c) by (by apply IH). lia.
Qed.

Lemma count_desc_witness (P : Node → bool) t :
  0 < Xml.count_desc P t →
  ∃ q n, q ≠ [] ∧ Xml.get_at q t = Some n ∧ P n = true.
Proof.
  induction t as [tg a cs IH|s] using Node_induction; [|cbn; lia].
  rewrite count_desc_element. intros Hpos.
  assert (∃ i c, cs !! i = Some c ∧ 0 < (if P c then 1 else 0) + Xml.count_desc P c)
    as (i & c & Hc & Hgt).
  { clear IH. induction cs as [|c cs IHcs]; [cbn in Hpos; lia|]. cbn in Hpos.
    destruct (decide (0 < (if P c then 1 else 0) + Xml.count_desc P c)).
    - by exists 0, c.
    - destruct IHcs as (i & c' & ? & ?); [lia|]. by exists (S i), c'. }
  destruct (P c) eqn:HP.
  - exists [i], c. cbn. by rewrite Hc.
  - rewrite Forall_lookup in IH. destruct (IH i c Hc) as (q & n & Hq & Hn & HPn); [lia|].
    exists (i :: q), n. cbn. by rewrite Hc.
Qed.

Lemma find_paths_element (P : Node → bool) tg a cs q :
  q ∈ Xml.find_paths P (Element tg a cs) ↔
  ∃ i c, cs !! i = Some c
         ∧ ((q = [i] ∧ P c = true) ∨ ∃ q', q = i :: q' ∧ q' ∈ Xml.find_paths P c).
Proof.
  cbn [Xml.find_paths].
  set (go := fix go (i : nat) (cs : list Node) : list (list nat) :=
         match cs with
         | [] => []
         | ch :: cs' =>
             (if P ch then [[i]] else []) ++ (cons i <$> Xml.find_paths P ch) ++ go (S i) cs'
         end).
  assert (∀ k, q ∈ go k cs ↔
          ∃ i c, cs !! i = Some c
                 ∧ ((q = [k + i] ∧ P c = true)
                    ∨ ∃ q', q = (k + i) :: q' ∧ q' ∈ Xml.find_paths P c)) as Hgo.
  { induction cs as [|c cs IH]; intros k.
    - cbn. split; [by intros ?%elem_of_nil|by intros (? & ? & ? & _)].
    - cbn [go]. rewrite !elem_of_app, list_elem_of_fmap, IH. split.
      + intros [Hq|[(q' & -> & Hq')|(i & c' & Hc' & Hq)]].
        * destruct (P c) eqn:HP; [|by apply elem_of_nil in Hq].
          apply list_elem_of_singleton in Hq as ->. exists 0, c.
          rewrite Nat.add_0_r. auto.
        * exists 0, c. rewrite Nat.add_0_r. eauto.
        * exists (S i), c'. replace (k + S i) with (S k + i) by lia. auto.
      + intros ([|i] & c' & Hc' & Hq).
        * injection Hc' as <-. rewrite Nat.add_0_r in Hq.
          destruct Hq as [[-> HP]|(q' & -> & Hq')].
          -- left. rewrite HP. by apply list_elem_of_singleton.
          -- right. left. eauto.
        * right. right. exists i, c'. replace (S k + i) with (k + S i) by lia. auto. }
  apply (Hgo 0).
Qed.

Lemma elem_of_find_paths (P : Node → bool) t q :
  q ∈ Xml.find_paths P t ↔ q ≠ [] ∧ ∃ n, Xml.get_at q t = Some n ∧ P n = true.
Proof.
  revert t. induction q as [|i q IH]; intros t.
  - split; [|by intros [? _]]. destruct t as [tg a cs|]; [|by intros ?%elem_of_nil].
    rewrite find_paths_element. by intros (? & ? & _ & [[? _]|(? & ? & _)]).
  - destruct t as [tg a cs|].
    + rewrite find_paths_element. cbn. split.
      * intros (j & c & Hc & [[Hq HP]|(q' & Hq & Hq')]); simplify_eq.
        -- split; [done|]. exists c. by rewrite Hc.
        -- split; [done|]. rewrite Hc. cbn. by apply IH in Hq' as [_ ?].
      * intros [_ (n & Hn & HP)]. destruct (cs !! i) as [c|] eqn:Hc; [|done].
        exists i, c. split; [done|]. cbn in Hn. destruct q as [|j q].
        -- injection Hn as ->. by left.
        -- right. exists (j :: q). split; [done|]. apply IH. eauto.
    + cbn. split; [by intros ?%elem_of_nil|by intros [_ (? & ? & _)]].
Qed.

End descendant_facts.

(** ** What the blocks of [toJingle] append *)

Section appends_facts.
Context `{LineCodec}.

Lemma clean_sum (cs : list Node) :
  Forall clean cs →
  sum_list_with (λ c, (if is_created c then 1 else 0) + Xml.count_desc is_created c) cs = 0.
Proof.
  induction 1 as [|c cs [Hc1 Hc2] _ IH]; [done|]. cbn. rewrite Hc1, Hc2, IH. done.
Qed.

Lemma clean_element tg a cs :
  tg ≠ "content" ∨ Xml.assoc_get "creator" a = None →
  Forall clean cs → clean (Element tg a cs).
Proof.
  intros Hhead Hcs. split.
  - unfold is_created, Xml.is_element, Xml.hasAttribute, Xml.getAttribute. cbn.
    destruct Hhead as [Htg| ->].
    + rewrite bool_decide_eq_false_2; [done|]. by intros [=].
    + rewrite (bool_decide_eq_false_2 (is_Some None)); [apply andb_false_r|].
      by intros [? ?].
  - rewrite count_desc_element. by apply clean_sum.
Qed.

Lemma clean_text s : clean (TextNode s).
Proof. done. Qed.

Lemma modifies_of_appends prog : appends prog → modifies prog.
Proof. intros (cs & ? & ?). by exists id, cs. Qed.

Lemma appends_skip : appends skip.
Proof. exists []. split; [apply acts_skip|done]. Qed.

Lemma modifies_attrs moreattrs : modifies (Strophe.attrs moreattrs).
Proof. exists (attrs_after moreattrs), []. split; [apply acts_attrs|done]. Qed.

Lemma modifies_t text : modifies (Strophe.t text).
Proof. exists id, [TextNode text]. split; [apply acts_t|]. repeat constructor. Qed.

Lemma appends_seq f g : appends f → appends g → appends (f >> g).
Proof.
  intros (cs1 & Hf & H1) (cs2 & Hg & H2). exists (cs1 ++ cs2).
  split; [apply (acts_seq _ _ _ _ _ _ Hf Hg)|by apply Forall_app].
Qed.

Lemma modifies_seq f g : modifies f → modifies g → modifies (f >> g).
Proof.
  intros (fa1 & cs1 & Hf & H1) (fa2 & cs2 & Hg & H2). exists (fa2 ∘ fa1), (cs1 ++ cs2).
  split; [apply (acts_seq _ _ _ _ _ _ Hf Hg)|by apply Forall_app].
Qed.

Lemma appends_when cond body : appends body → appends (when cond body).
Proof. destruct cond; [done|]. intros _. apply appends_skip. Qed.

Lemma modifies_when cond body : modifies body → modifies (when cond body).
Proof. destruct cond; [done|]. intros _. apply modifies_of_appends, appends_skip. Qed.

Lemma appends_forEach {A} (l : list A) (body : A → Builder → Builder) :
  (∀ x, appends (body x)) → appends (forEach l body).
Proof.
  intros Hbody. induction l as [|x l IH] using rev_ind; [apply appends_skip|].
  destruct IH as (cs1 & Hl & H1). destruct (Hbody x) as (cs2 & Hx & H2).
  exists (cs1 ++ cs2). split; [|by apply Forall_app].
  intros b. unfold forEach in *. rewrite foldl_app. cbn. rewrite Hx, Hl.
  unfold Strophe.at_cursor. cbn. f_equal. rewrite update_at_compose.
  apply update_at_ext. intros n _. apply extend_compose.
Qed.

Lemma appends_block name attrs body :
  name ≠ "content" → modifies body → appends (block name attrs body).
Proof.
  intros Hname (fa & cs & Hbody & Hcs).
  exists [Element name (fa (obj_attrs attrs)) cs]. split; [by apply acts_block|].
  constructor; [|done]. apply clean_element; auto.
Qed.

(** The content children of a grouping element carry a name only. *)
Lemma appends_group_content name :
  appends (block "content" [("name", Some name)] skip).
Proof.
  exists [Element "content" (id (obj_attrs [("name", Some name)])) []].
  split; [apply acts_block, acts_skip|].
  constructor; [|done]. apply clean_element; [|done]. right. cbn.
  by rewrite decide_False.
Qed.

End appends_facts.

Ltac builder_step :=
  lazymatch goal with
  | |- appends (_ >> _) => apply appends_seq
  | |- appends (forEach _ _) => apply appends_forEach; intros
  | |- appends (when _ _) => apply appends_when
  | |- appends (block _ _ _) => apply appends_block; [done|]
  | |- appends skip => apply appends_skip
  | |- appends (match ?x with _ => _ end) => destruct x
  | |- modifies (_ >> _) => apply modifies_seq
  | |- modifies (when _ _) => apply modifies_when
  | |- modifies (Strophe.attrs _) => apply modifies_attrs
  | |- modifies (Strophe.t _) => apply modifies_t
  | |- modifies (match ?x with _ => _ end) => destruct x
  | |- modifies _ => apply modifies_of_appends
  end.

Create HintDb builder.

Ltac builder := repeat (cbv zeta; first [solve [auto with builder nocore] | builder_step]).

Section to_jingle_blocks.
Context `{LineCodec}.

Lemma rtcpFbToJingle_section_appends mediaItem payloadtype :
  appends (rtcpFbToJingle_section mediaItem payloadtype).
Proof. unfold rtcpFbToJingle_section. builder. Qed.
Local Hint Resolve rtcpFbToJingle_section_appends : builder.

Lemma modifies_extmap_senders extmap : modifies (extmap_senders extmap).
Proof. unfold extmap_senders. builder. Qed.
Local Hint Resolve modifies_extmap_senders : builder.

Lemma transportToJingle_section_appends s mediaItem :
  appends (transportToJingle_section s mediaItem).
Proof.
  unfold transportToJingle_section, transport_sctp, transport_fingerprints,
    transport_candidates.
  builder.
Qed.
Local Hint Resolve transportToJingle_section_appends : builder.

Lemma description_block_appends s mediaItem mediaType :
  appends (description_block s mediaItem mediaType).
Proof. unfold description_block. builder. Qed.
Local Hint Resolve description_block_appends : builder.

Lemma toJingle_groups_appends s : appends (toJingle_groups s).
Proof.
  unfold toJingle_groups. apply appends_forEach. intros line. cbv zeta.
  apply appends_block; [done|]. apply modifies_of_appends, appends_forEach.
  intros name. apply appends_group_content.
Qed.

End to_jingle_blocks.

Section content_facts.
Context `{LineCodec}.

Lemma direction_senders_acts mediaItem :
  acts (direction_senders mediaItem)
       (match senders_of_direction mediaItem with
        | Some senders => attrs_after [("senders", Some senders)]
        | None => id
        end) [].
Proof.
  unfold direction_senders, senders_of_direction.
  repeat case_bool_decide; apply acts_attrs || apply acts_skip.
Qed.

(** The content element a section makes: its attributes are the creator,
    the name and the senders value of the section; nothing below it is a
    content made by the converter. *)
Lemma content_block_acts s thecreator mediaItem :
  ∃ cs, Forall clean cs
        ∧ acts (content_block s thecreator mediaItem) id
               [Element "content" (content_attrs s thecreator mediaItem) cs].
Proof.
  unfold content_block. cbv zeta.
  match goal with
  | |- ∃ cs, _ ∧ acts (block _ _ (?B1 >> direction_senders _ >> when ?r ?a)) _ _ =>
      assert (appends B1) as (cs & HB1 & Hcs)
        by (builder; auto using transportToJingle_section_appends,
                                description_block_appends)
  end.
  exists cs. split; [done|].
  eapply acts_ext; [apply acts_block; eapply acts_seq; [eapply acts_seq;
    [apply HB1|apply direction_senders_acts]|]|..].
  - instantiate (2 := if is_rejected s mediaItem
                      then attrs_after [("senders", Some "rejected")] else id).
    instantiate (1 := []).
    destruct (is_rejected s mediaItem); [apply acts_attrs|apply acts_skip].
  - done.
  - rewrite !app_nil_r. f_equal. f_equal. unfold content_attrs, content_senders, content_name.
    destruct (is_rejected s mediaItem), (senders_of_direction mediaItem); reflexivity.
Qed.

Lemma toJingle_media_created s thecreator mediaItem elem :
  created_content (resolved_type mediaItem) elem = None →
  toJingle_media s thecreator mediaItem elem = content_block s thecreator mediaItem elem.
Proof. unfold toJingle_media. by intros ->. Qed.

Lemma toJingle_media_merged s thecreator mediaItem elem content :
  created_content (resolved_type mediaItem) elem = Some content →
  toJingle_media s thecreator mediaItem elem = merge_section mediaItem content elem.
Proof. unfold toJingle_media. by intros ->. Qed.

End content_facts.

(** ** One content element for each media type *)

Section positioned_facts.

Lemma element_at_extend (r : list nat) fa cs (n : Node) :
  (∃ tg a ch, Xml.get_at r n = Some (Element tg a ch)) →
  ∃ tg a ch, Xml.get_at r (extend fa cs n) = Some (Element tg a ch).
Proof.
  intros (tg & a & ch & Hr). destruct r as [|i r].
  - injection Hr as ->. cbn. eauto.
  - destruct n as [tg' a' ch'|]; [|done]. cbn in *.
    destruct (ch' !! i) as [c|] eqn:Hc; [|done].
    rewrite (lookup_app_l_Some _ _ _ _ Hc). cbn in *. eauto.
Qed.

Lemma element_at_update_at (p q : list nat) fa cs (t : Node) :
  (∃ tg a ch, Xml.get_at p t = Some (Element tg a ch)) →
  ∃ tg a ch, Xml.get_at p (Xml.update_at q (extend fa cs) t) = Some (Element tg a ch).
Proof.
  revert p t. induction q as [|j q IH]; intros p t Hp; [by apply element_at_extend|].
  destruct t as [tg' a' ch'|]; [|done]. cbn [Xml.update_at].
  destruct p as [|i p]; [cbn; eauto|]. cbn in *.
  destruct (decide (j = i)) as [->|Hne].
  - rewrite list_lookup_alter_eq. destruct (ch' !! i) as [c|]; [|by destruct Hp as (?&?&?&?)].
    cbn in *. by apply IH.
  - by rewrite list_lookup_alter_ne.
Qed.

Lemma positioned_at_cursor fa cs (b : Builder) :
  positioned b → positioned (Strophe.at_cursor (extend fa cs) b).
Proof. apply element_at_update_at. Qed.

Lemma positioned_jq_append targets child (b : Builder) :
  positioned b → positioned (jq_append targets child b).
Proof.
  unfold positioned, jq_append. cbn. generalize (node b) (nodeTree b).
  induction targets as [|q targets IH]; intros p t Hp; [done|]. cbn.
  apply IH. by apply (element_at_update_at p q id [child]).
Qed.

Lemma count_desc_le (P Q : Node → bool) (t : Node) :
  (∀ n, P n = true → Q n = true) → Xml.count_desc P t ≤ Xml.count_desc Q t.
Proof.
  intros HPQ. induction t as [tg a cs IH|s] using Node_induction; [|done].
  rewrite !count_desc_element. induction IH as [|c cs Hc _ IHcs]; [done|]. cbn.
  assert ((if P c then 1 else 0) ≤ (if Q c then 1 else 0)).
  { destruct (P c) eqn:E; [by rewrite (HPQ _ E)|destruct (Q c); lia]. }
  lia.
Qed.

Lemma free_mono (P Q : Node → bool) (n : Node) :
  (∀ n, P n = true → Q n = true) → free Q n → free P n.
Proof.
  intros HPQ [HQ1 HQ2]. split.
  - destruct (P n) eqn:E; [|done]. by rewrite (HPQ _ E) in HQ1.
  - pose proof (count_desc_le P Q n HPQ). lia.
Qed.

Lemma free_sum (P : Node → bool) (cs : list Node) :
  Forall (free P) cs →
  sum_list_with (λ c, (if P c then 1 else 0) + Xml.count_desc P c) cs = 0.
Proof.
  induction 1 as [|c cs [Hc1 Hc2] _ IH]; [done|]. cbn. rewrite Hc1, Hc2, IH. done.
Qed.

Lemma head_test_extend (P : Node → bool) fa cs n :
  head_test P → (∀ a, fa a = a) → P (extend fa cs n) = P n.
Proof.
  intros HP Hfa. destruct n as [tg a ch|]; [|done]. apply HP; cbn; [done|apply Hfa].
Qed.

(** Nodes appended at a path change a count by what they hold. *)
Lemma count_desc_append_at (P : Node → bool) (p : list nat) cs (t : Node) :
  head_test P →
  Xml.count_desc P (Xml.update_at p (extend id cs) t)
  = Xml.count_desc P t
    + match Xml.get_at p t with
      | Some (Element _ _ _) =>
          sum_list_with (λ c, (if P c then 1 else 0) + Xml.count_desc P c) cs
      | _ => 0
      end.
Proof.
  intros HP. destruct (Xml.get_at p t) as [n|] eqn:Hn.
  - pose proof (count_desc_update_at P p (extend id cs) t n HP Hn
                  (head_test_extend P id cs n HP (λ a, eq_refl))) as Hc.
    rewrite count_desc_extend in Hc. destruct n; lia.
  - rewrite update_at_none by done. lia.
Qed.

Lemma count_desc_jq_append (P : Node → bool) targets child (b : Builder) :
  head_test P → free P child →
  Xml.count_desc P (nodeTree (jq_append targets child b)) = Xml.count_desc P (nodeTree b).
Proof.
  intros HP Hfree. unfold jq_append. cbn. generalize (nodeTree b).
  induction targets as [|q targets IH]; intros t; [done|]. cbn. rewrite IH.
  change (Xml.appendChild child) with (extend id [child]).
  rewrite (count_desc_append_at P q [child] t HP).
  rewrite (free_sum P [child]) by (by constructor). destruct (Xml.get_at q t) as [[]|]; lia.
Qed.

End positioned_facts.

Section merge_facts.
Context `{LineCodec}.

Lemma head_test_is_element tg : head_test (Xml.is_element tg).
Proof. intros n n' Htg _. unfold Xml.is_element. by rewrite Htg. Qed.

Lemma head_test_created_named name : head_test (created_named name).
Proof.
  intros n n' Htg Ha.
  unfold created_named, content_named, Xml.is_element, Xml.hasAttribute, Xml.getAttribute.
  by rewrite Htg, Ha.
Qed.

Lemma head_test_is_created : head_test is_created.
Proof.
  intros n n' Htg Ha.
  unfold is_created, Xml.is_element, Xml.hasAttribute, Xml.getAttribute.
  by rewrite Htg, Ha.
Qed.

Lemma created_named_is_content name n :
  created_named name n = true → Xml.is_element "content" n = true.
Proof. unfold created_named, content_named. by intros [[? _]%andb_prop _]%andb_prop. Qed.

Lemma created_named_is_created name n :
  created_named name n = true → is_created n = true.
Proof.
  unfold created_named, content_named, is_created.
  intros [[-> _]%andb_prop ->]%andb_prop. done.
Qed.

Lemma free_element (P : Node → bool) tg a cs :
  P (Element tg a cs) = false → Forall (free P) cs → free P (Element tg a cs).
Proof. intros HP Hcs. split; [done|]. rewrite count_desc_element. by apply free_sum. Qed.

Lemma foldl_appendChild {A} (f : A → Node) (l : list A) tg a cs :
  foldl (λ g v, Xml.appendChild (f v) g) (Element tg a cs) l = Element tg a (cs ++ (f <$> l)).
Proof.
  revert cs. induction l as [|x l IH]; intros cs; cbn; [by rewrite app_nil_r|].
  by rewrite IH, <- (assoc_L (++)).
Qed.

Lemma merged_sources_free mediaItem :
  Forall (λ n, free (Xml.is_element "content") n ∧ source_or_group n = true)
         (merged_sources mediaItem).
Proof.
  unfold merged_sources. apply Forall_fmap, Forall_forall. intros [ssrc params] _.
  cbv beta iota zeta delta [compose]. rewrite !xmlElement_attrs. destruct (msid_of params); cbn; (split; [|done]).
  - apply free_element; [done|]. constructor; [|done]. by apply free_element.
  - by apply free_element.
Qed.

Lemma merged_groups_free mediaItem :
  Forall (λ n, free (Xml.is_element "content") n ∧ source_or_group n = true)
         (merged_groups mediaItem).
Proof.
  unfold merged_groups. apply Forall_bind, Forall_forall. intros line _.
  cbv beta iota zeta delta [compose].
  case_decide; [|done]. constructor; [|done].
  rewrite xmlElement_attrs, foldl_appendChild. split; [|done].
  apply free_element; [done|]. apply Forall_app. split; [done|].
  apply Forall_fmap, Forall_forall. intros v _.
  cbv beta delta [compose]. rewrite xmlElement_attrs. by apply free_element.
Qed.

Lemma positioned_merge_section mediaItem content b :
  positioned b → positioned (merge_section mediaItem content b).
Proof.
  unfold merge_section. destruct (has_ssrc mediaItem); [|done]. cbv zeta.
  set (targets := (content ++.) <$> _). clearbody targets. intros Hb.
  assert (∀ l b, positioned b → positioned (foldl (λ b x, jq_append targets x b) b l)) as Hl.
  { clear. induction l as [|x l IH]; intros b Hb; [done|]. cbn.
    by apply IH, positioned_jq_append. }
  by apply Hl, Hl.
Qed.

Lemma node_merge_section mediaItem content b :
  node (merge_section mediaItem content b) = node b.
Proof.
  unfold merge_section. destruct (has_ssrc mediaItem); [|done]. cbv zeta.
  set (targets := (content ++.) <$> _). clearbody targets.
  assert (∀ l b, node (foldl (λ b x, jq_append targets x b) b l) = node b) as Hl.
  { clear. induction l as [|x l IH]; intros b; [done|]. cbn. by rewrite IH. }
  by rewrite !Hl.
Qed.

(** Merging a section into the content that is there changes no count of
    content elements. *)
Lemma count_desc_merge_section (P : Node → bool) mediaItem content b :
  head_test P → (∀ n, P n = true → Xml.is_element "content" n = true) →
  Xml.count_desc P (nodeTree (merge_section mediaItem content b))
  = Xml.count_desc P (nodeTree b).
Proof.
  intros HP Hcontent. unfold merge_section. destruct (has_ssrc mediaItem); [|done]. cbv zeta.
  set (targets := (content ++.) <$> _). clearbody targets.
  assert (∀ l b, Forall (free (Xml.is_element "content")) l →
                 Xml.count_desc P (nodeTree (foldl (λ b x, jq_append targets x b) b l))
                 = Xml.count_desc P (nodeTree b)) as Hl.
  { clear -HP Hcontent. induction l as [|x l IH]; intros b Hl; [done|]. cbn.
    apply Forall_cons in Hl as [Hx Hl]. rewrite IH by done.
    apply count_desc_jq_append; [done|]. by eapply free_mono. }
  rewrite !Hl; [done|..].
  - eapply Forall_impl; [apply merged_sources_free|]. by intros ? [? _].
  - eapply Forall_impl; [apply merged_groups_free|]. by intros ? [? _].
Qed.

Lemma created_content_None name b :
  created_content name b = None → Xml.count_desc (created_named name) (nodeTree b) = 0.
Proof.
  unfold created_content. intros Hnone.
  destruct (list_find _ _) as [[i p]|] eqn:Hfind; [done|]. clear Hnone.
  apply list_find_None in Hfind.
  destruct (Xml.count_desc (created_named name) (nodeTree b)) as [|k] eqn:Hk; [done|].
  destruct (count_desc_witness (created_named name) (nodeTree b)) as (q & n & Hq & Hn & HP);
    [lia|].
  apply andb_prop in HP as [Hname Hcreator].
  rewrite Forall_forall in Hfind. destruct (Hfind q).
  - apply elem_of_find_paths. eauto.
  - unfold Strophe.tree. by rewrite Hn.
Qed.

Lemma created_content_Some name b content :
  created_content name b = Some content →
  0 < Xml.count_desc (created_named name) (nodeTree b).
Proof.
  unfold created_content. intros Hsome.
  destruct (list_find _ _) as [[i p]|] eqn:Hfind; [|done]. injection Hsome as ->.
  apply list_find_Some in Hfind as (Hp & Hcreator & _).
  apply list_elem_of_lookup_2, elem_of_find_paths in Hp as (Hne & n & Hn & Hname).
  unfold Strophe.tree in *. rewrite Hn in Hcreator. cbn in Hcreator.
  eapply count_desc_pos; [done..|]. unfold created_named. by rewrite Hname, Hcreator.
Qed.

End merge_facts.

Section collapse_facts.
Context `{LineCodec}.

Lemma clean_free_created_named name n : clean n → free (created_named name) n.
Proof. apply free_mono, created_named_is_created. Qed.

Lemma appends_counts prog (b : Builder) name :
  appends prog → positioned b →
  positioned (prog b)
  ∧ Xml.count_desc (created_named name) (nodeTree (prog b))
    = Xml.count_desc (created_named name) (nodeTree b).
Proof.
  intros (cs & Hacts & Hcs) Hb. rewrite Hacts. split; [by apply positioned_at_cursor|].
  cbn. rewrite count_desc_append_at by apply head_test_created_named.
  rewrite free_sum; [destruct (Xml.get_at _ _) as [[]|]; lia|].
  eapply Forall_impl; [done|]. apply clean_free_created_named.
Qed.

Lemma content_attrs_creator s thecreator mediaItem :
  Xml.assoc_get "creator" (content_attrs s thecreator mediaItem) = Some thecreator.
Proof. unfold content_attrs. cbn [app Xml.assoc_get]. by rewrite decide_True. Qed.

Lemma content_attrs_name s thecreator mediaItem :
  Xml.assoc_get "name" (content_attrs s thecreator mediaItem) = Some (content_name s mediaItem).
Proof.
  unfold content_attrs. cbn [app Xml.assoc_get].
  rewrite decide_False by done. by rewrite decide_True.
Qed.

Lemma content_attrs_senders s thecreator mediaItem :
  Xml.assoc_get "senders" (content_attrs s thecreator mediaItem) = content_senders s mediaItem.
Proof.
  unfold content_attrs. cbn [app Xml.assoc_get].
  rewrite !decide_False by done. destruct (content_senders s mediaItem); [|done].
  cbn. by rewrite decide_True.
Qed.

Lemma content_block_counts s thecreator mediaItem (b : Builder) name :
  positioned b →
  positioned (content_block s thecreator mediaItem b)
  ∧ Xml.count_desc (created_named name) (nodeTree (content_block s thecreator mediaItem b))
    = Xml.count_desc (created_named name) (nodeTree b)
      + (if decide (name = content_name s mediaItem) then 1 else 0).
Proof.
  intros Hb. destruct (content_block_acts s thecreator mediaItem) as (cs & Hcs & Hacts).
  rewrite Hacts. split; [by apply positioned_at_cursor|].
  unfold Strophe.at_cursor. cbn [nodeTree node].
  rewrite count_desc_append_at by apply head_test_created_named.
  destruct Hb as (tg & a & ch & ->). cbn [sum_list_with]. f_equal.
  rewrite count_desc_element, free_sum, !Nat.add_0_r.
  - unfold created_named, content_named, Xml.is_element, Xml.hasAttribute, Xml.getAttribute.
    cbn [Xml.tagName Xml.attributes_of].
    rewrite content_attrs_name, content_attrs_creator.
    rewrite (bool_decide_eq_true_2 (is_Some _)) by eauto.
    rewrite (bool_decide_eq_true_2 (Some "content" = _)) by done. cbn [andb].
    rewrite andb_true_r.
    case_decide; [subst; by rewrite bool_decide_eq_true_2|].
    rewrite bool_decide_eq_false_2; [done|congruence].
  - eapply Forall_impl; [done|]. apply clean_free_created_named.
Qed.

Lemma toJingle_media_loop s thecreator (items : list string) :
  isP2P s = false →
  ∀ (b : Builder) (seen : list string),
    positioned b →
    (∀ name, Xml.count_desc (created_named name) (nodeTree b)
             = if bool_decide (name ∈ seen) then 1 else 0) →
    positioned (forEach items (toJingle_media s thecreator) b)
    ∧ ∀ name,
        Xml.count_desc (created_named name)
                       (nodeTree (forEach items (toJingle_media s thecreator) b))
        = if bool_decide (name ∈ seen ++ (resolved_type <$> items)) then 1 else 0.
Proof.
  intros Hp2p. induction items as [|item items IH]; intros b seen Hb Hcount.
  - cbn. rewrite app_nil_r. done.
  - unfold forEach in *. cbn [foldl fmap list_fmap].
    replace (seen ++ resolved_type item :: (resolved_type <$> items))
      with ((seen ++ [resolved_type item]) ++ (resolved_type <$> items))
      by (by rewrite <- (assoc_L (++))).
    destruct (created_content (resolved_type item) b) as [content|] eqn:Hfound.
    + assert (resolved_type item ∈ seen) as Hin.
      { apply created_content_Some in Hfound as Hpos. rewrite Hcount in Hpos.
        case_bool_decide; [done|lia]. }
      rewrite (toJingle_media_merged _ _ _ _ _ Hfound).
      apply IH; [by apply positioned_merge_section|]. intros name.
      rewrite count_desc_merge_section
        by (apply head_test_created_named || apply created_named_is_content).
      rewrite Hcount.
      by rewrite (bool_decide_ext (name ∈ seen) (name ∈ seen ++ [resolved_type item]))
        by set_solver.
    + assert (resolved_type item ∉ seen) as Hin.
      { apply created_content_None in Hfound as Hzero. rewrite Hcount in Hzero.
        case_bool_decide; [lia|done]. }
      rewrite (toJingle_media_created _ _ _ _ Hfound).
      destruct (content_block_counts s thecreator item b "" Hb) as [Hb' _].
      apply IH; [done|]. intros name.
      destruct (content_block_counts s thecreator item b name Hb) as [_ ->].
      rewrite Hcount. unfold content_name. rewrite Hp2p.
      case_decide as Hname.
      * subst. rewrite bool_decide_eq_false_2 by done.
        by rewrite bool_decide_eq_true_2 by set_solver.
      * rewrite Nat.add_0_r.
        by rewrite (bool_decide_ext (name ∈ seen) (name ∈ seen ++ [resolved_type item]))
          by set_solver.
Qed.

End collapse_facts.

(** ** Candidates, direction and the rebuilt session *)

Section conversion_facts.
Context `{LineCodec}.

Lemma foldl_append {A} (g : A → string) (l : list A) (sdp : string) :
  foldl (λ sdp x, sdp +:+ g x) sdp l = sdp +:+ JS.join "" (g <$> l).
Proof.
  revert sdp. induction l as [|x l IH]; intros sdp; cbn [foldl].
  - by rewrite str_app_nil_r.
  - by rewrite IH, fmap_cons, join_empty_cons, str_app_assoc.
Qed.

Lemma jingle2media_candidates_spec (s : SDP) (transport : list Node) (sdp : string) :
  jingle2media_candidates s transport sdp
  = sdp +:+ JS.join ""
      ((λ c, candidateFromJingle (stamped_candidate s c))
       <$> filter (λ c, candidate_removed s (stanza_protocol c) = false)
                  (JQ.find_child "candidate" transport)).
Proof.
  unfold jingle2media_candidates. generalize (JQ.find_child "candidate" transport).
  intros l. revert sdp. induction l as [|c l IH]; intros sdp; cbn [foldl].
  - by rewrite str_app_nil_r.
  - rewrite IH. fold (stanza_protocol c).
    destruct (candidate_removed s (stanza_protocol c)) eqn:E.
    + by rewrite filter_cons_False by (rewrite E; done).
    + rewrite filter_cons_True by done.
      by rewrite fmap_cons, join_empty_cons, str_app_assoc.
Qed.

Lemma candidate_removed_tcp (s : SDP) (protocol : string) :
  removeTcpCandidates s = true → protocol = "tcp" ∨ protocol = "ssltcp" →
  candidate_removed s protocol = true.
Proof. unfold candidate_removed. by intros -> [-> | ->]. Qed.

Lemma candidate_removed_udp (s : SDP) :
  removeUdpCandidates s = false → candidate_removed s "udp" = false.
Proof. unfold candidate_removed. intros ->. cbn. by rewrite andb_false_r. Qed.

Lemma fromJingle_media_fold (f : Node → string) (l : list Node) (m0 : list string) :
  foldl (λ media content, media ++ [f content]) m0 l = m0 ++ (f <$> l).
Proof.
  revert m0. induction l as [|x l IH]; intros m0; cbn; [by rewrite app_nil_r|].
  by rewrite IH, <- (assoc_L (++)).
Qed.

End conversion_facts.

Section description_facts.
Context `{LineCodec}.

Lemma foldl_prefix {A} (F : string → A → string) (l : list A) :
  (∀ a b x, F (a +:+ b) x = a +:+ F b x) →
  ∀ a b, foldl F (a +:+ b) l = a +:+ foldl F b l.
Proof.
  intros HF. induction l as [|x l IH]; intros a b; [done|]. cbn. by rewrite HF, IH.
Qed.

(** The lines of the description are appended to the text built so far. *)
Lemma jingle2media_description_app (desc : list Node) (sdp : string) :
  jingle2media_description desc sdp = sdp +:+ jingle2media_description desc "".
Proof.
  rewrite <- (str_app_nil_r sdp) at 1. generalize "". intros b.
  unfold jingle2media_description. cbv zeta.
  assert (∀ (c : bool) (a b x : string),
            (if c then (a +:+ b) +:+ x else a +:+ b) = a +:+ (if c then b +:+ x else b))
    as Hif by (intros [] ???; by rewrite ?str_app_assoc).
  repeat match goal with
         | |- context [decide ?P] => destruct (decide P)
         end;
    rewrite ?str_app_assoc;
    repeat (rewrite foldl_prefix;
            [|intros; repeat case_decide; by rewrite ?str_app_assoc]);
    rewrite ?str_app_assoc;
    repeat (rewrite foldl_prefix;
            [|intros; repeat case_decide; by rewrite ?str_app_assoc]);
    rewrite ?str_app_assoc;
    repeat (rewrite foldl_prefix;
            [|intros; repeat case_decide; by rewrite ?str_app_assoc]);
    by rewrite ?str_app_assoc.
Qed.

End description_facts.

Section transport_facts.
Context `{LineCodec}.

Lemma transport_candidates_acts s mediaItem :
  acts (transport_candidates s mediaItem) id
       (candidate_elements s (SDPUtil.findLines mediaItem "a=candidate:" (Some (session s)))).
Proof.
  unfold transport_candidates, candidate_elements. cbv zeta.
  generalize (SDPUtil.findLines mediaItem "a=candidate:" (Some (session s))). intros l.
  eapply acts_ext;
    [apply (acts_forEach l _
              (λ line,
                 if candidate_removed s (parsed_protocol (stamped_object s (candidateToJingle line)))
                 then []
                 else [Element "candidate"
                         (obj_attrs (stamped_object s (candidateToJingle line))) []]))
    |done|].
  - intros line. fold (stamped_object s (candidateToJingle line)).
    fold (parsed_protocol (stamped_object s (candidateToJingle line))).
    destruct (candidate_removed _ _); [apply acts_skip|].
    apply (acts_block "candidate" _ skip id []), acts_skip.
  - induction l as [|line l IH]; [done|]. cbn [mbind list_bind].
    change (foldr _ _ l) with (l ≫= (λ line,
                 if candidate_removed s (parsed_protocol (stamped_object s (candidateToJingle line)))
                 then []
                 else [Element "candidate"
                         (obj_attrs (stamped_object s (candidateToJingle line))) []])).
    rewrite IH. destruct (candidate_removed _ _) eqn:E.
    + by rewrite filter_cons_False by (rewrite E; done).
    + by rewrite filter_cons_True by done.
Qed.

Lemma transport_before_acts s mediaItem :
  ∃ cs, acts (transport_sctp s mediaItem >> transport_fingerprints s mediaItem) id cs
        ∧ Forall (λ n, Xml.is_element "candidate" n = false) cs.
Proof.
  assert (∃ cs1, acts (transport_sctp s mediaItem) id cs1
                 ∧ Forall (λ n, Xml.is_element "candidate" n = false) cs1)
    as (cs1 & H1 & Hcs1).
  { unfold transport_sctp. cbv zeta.
    destruct (SDPUtil.findLine mediaItem "a=sctp-port:" _);
      [|destruct (SDPUtil.findLine mediaItem "a=sctpmap:" _)].
    - eexists. split; [apply acts_block, acts_attrs|]. by repeat constructor.
    - eexists. split; [apply acts_block, acts_attrs|]. by repeat constructor.
    - exists []. split; [apply acts_skip|done]. }
  assert (∃ cs2, acts (transport_fingerprints s mediaItem) id cs2
                 ∧ Forall (λ n, Xml.is_element "candidate" n = false) cs2)
    as (cs2 & H2 & Hcs2).
  { unfold transport_fingerprints. cbv zeta.
    generalize (SDPUtil.findLines mediaItem "a=fingerprint:" (Some (session s))).
    intros l. eexists. split.
    - apply acts_forEach. intros line. apply acts_block.
      eapply acts_seq; [apply acts_t|apply acts_attrs].
    - apply Forall_bind, Forall_forall. intros line _. by repeat constructor. }
  exists (cs1 ++ cs2). split; [apply (acts_seq _ _ _ _ _ _ H1 H2)|by apply Forall_app].
Qed.

(** The transport element of a section: with ICE credentials its children
    end with the candidates that are kept, and nothing before them is a
    candidate; without credentials it has no candidate child. *)
Lemma transportToJingle_section_acts s mediaItem :
  ∃ attrs before,
    Forall (λ n, Xml.is_element "candidate" n = false) before
    ∧ acts (transportToJingle_section s mediaItem) id
        [Element "transport" attrs
           (before ++
            match iceparams mediaItem (session s) with
            | Some _ =>
                candidate_elements s
                  (SDPUtil.findLines mediaItem "a=candidate:" (Some (session s)))
            | None => []
            end)].
Proof.
  destruct (transport_before_acts s mediaItem) as (before & Hbefore & Hcs).
  unfold transportToJingle_section. cbv zeta.
  destruct (iceparams mediaItem (session s)) as [ice|].
  - eexists _, before. split; [done|].
    apply acts_block. eapply acts_seq; [apply Hbefore|].
    eapply acts_ext; [eapply acts_seq; [apply acts_attrs|apply transport_candidates_acts]|..];
      done.
  - eexists _, before. split; [done|].
    apply acts_block. eapply acts_seq; [apply Hbefore|apply acts_skip].
Qed.

Lemma stamped_object_ip (s : SDP) (candidate : jsobject) :
  failICE s = true → Xml.assoc_get "ip" (stamped_object s candidate) = Some (Some "1.1.1.1").
Proof.
  unfold stamped_object. intros ->. induction candidate as [|[k v] o IH]; cbn.
  - by rewrite decide_True.
  - destruct (decide (k = "ip")) as [->|]; cbn; [by rewrite decide_True|].
    by rewrite decide_False.
Qed.

Lemma stamped_candidate_ip (s : SDP) tg a cs :
  failICE s = true →
  Xml.getAttribute "ip" (stamped_candidate s (Element tg a cs)) = Some "1.1.1.1".
Proof.
  unfold stamped_candidate, Xml.getAttribute. intros ->. cbn.
  induction a as [|[k v] a IH]; cbn.
  - by rewrite decide_True.
  - destruct (decide (k = "ip")) as [->|]; cbn; [by rewrite decide_True|].
    by rewrite decide_False.
Qed.

End transport_facts.

(** ** The claims about the two conversions *)

Section conversion_claims.
Context `{LineCodec}.




(** C9, as amended.  [fromJingle] rebuilds the session header and the
    serialized text from the stanza and appends the sections built from the
    stanza's contents to the media list the model holds; for a model whose
    media list is empty, as after construction from the empty text, the list
    and the text are exactly those built from the stanza. *)
Theorem fromJingle_rebuilds (sessionId : N) (jingle : Node) (s : SDP) :
  session (fromJingle sessionId jingle s) = fromJingle_session sessionId jingle
  ∧ media (fromJingle sessionId jingle s)
    = media s ++ (jingle2media s <$> JQ.find_child "content" [jingle])
  ∧ raw (fromJingle sessionId jingle s)
    = session (fromJingle sessionId jingle s)
      +:+ JS.join "" (media (fromJingle sessionId jingle s))
  ∧ (media s = [] →
     media (fromJingle sessionId jingle s)
     = jingle2media s <$> JQ.find_child "content" [jingle]).
Proof.
  unfold fromJingle. cbn [session media raw]. rewrite fromJingle_media_fold.
  repeat split. by intros ->.
Qed.

End conversion_claims.

(** ** Adding a media section *)

Section add_mline_facts.

Lemma join_snoc (sep : string) (l : list string) (x : string) :
  l ≠ [] → JS.join sep (l ++ [x]) = JS.join sep l +:+ sep +:+ x.
Proof.
  destruct l as [|y l]; [done|]. intros _. cbn [JS.join app].
  rewrite str_app_assoc. f_equal.
  induction l as [|z l IH]; cbn; [by rewrite str_app_nil_r|].
  by rewrite IH, !str_app_assoc.
Qed.

Lemma join_split_snoc (mids x : string) :
  JS.join " " (JS.split " " mids ++ [x]) = mids +:+ " " +:+ x.
Proof.
  change (JS.split " " mids) with (JS.split_go " " 0 "" mids).
  destruct (split_go_cons " " 0 "" mids) as (y & l & Hy).
  rewrite join_snoc by (by rewrite Hy).
  by rewrite (join_split_go " ").
Qed.

Lemma addMline_edit_groups (mid : nat) (groups : list Group) :
  Forall2 (group_after mid) groups
    ((λ group,
        if decide (group_type group = "BUNDLE")
        then {| group_type := group_type group;
                group_mids := JS.join " " (JS.split " " (group_mids group) ++ [pretty mid]) |}
        else group) <$> groups).
Proof.
  induction groups as [|g groups IH]; [constructor|]. cbn [fmap list_fmap].
  constructor; [|done].
  unfold group_after. case_decide; [|done]. cbn [group_type group_mids].
  by rewrite join_split_snoc.
Qed.

End add_mline_facts.

Section add_mline_claims.
Context `{SdpTransform}.


(** C4, as amended.  On a model whose description holds no section of the
    requested type, [addMlineForNewLocalSource] throws a TypeError at the
    first assignment on the missing clone, and the model is as before the
    call. *)
Theorem addMline_missing_type_throws (s : SDP) (mediaType : string) :
  List.find (has_type mediaType) (sdp_media (transform_parse (raw s))) = None →
  addMlineForNewLocalSource mediaType s
  = (Throw (TypeError "Cannot set properties of undefined (setting 'mid')"), s).
Proof.
  intros Hfind. unfold addMlineForNewLocalSource, addMline_edit. cbv zeta.
  by rewrite Hfind.
Qed.

End add_mline_claims.

(** ** Feedback lines *)

Section feedback_claims.
Context `{LineCodec}.

(** C8.  A feedback child with type nack and subtype pli under payload type
    100 is written as the line [a=rtcp-fb:100 nack pli], and a section
    holding that line gives back, for payload type 100, a feedback child with
    the same type and subtype (the very child the line was written from),
    for a codec that reads the line's type as nack and its parameters as
    pli. *)
Theorem feedback_round_trip :
  parseRTCPFB "a=rtcp-fb:100 nack pli" = {| fb_type := Some "nack"; fb_params := ["pli"] |} →
  rtcpFbFromJingle [Samples.payload_100] (Xml.getAttribute "id" Samples.payload_100)
  = "a=rtcp-fb:100 nack pli" +:+ JS.CRLF
  ∧ acts (rtcpFbToJingle_section
            (rtcpFbFromJingle [Samples.payload_100]
               (Xml.getAttribute "id" Samples.payload_100)) "100")
         id (Xml.childNodes Samples.payload_100).
Proof.
  intros Hparse. split; [reflexivity|].
  unfold rtcpFbToJingle_section. cbv zeta.
  assert (SDPUtil.findLines
            (rtcpFbFromJingle [Samples.payload_100]
               (Xml.getAttribute "id" Samples.payload_100))
            ("a=rtcp-fb:" +:+ "100") None = ["a=rtcp-fb:100 nack pli"]) as -> by reflexivity.
  intros b. unfold forEach. cbn [foldl]. rewrite Hparse. cbn [fb_type fb_params].
  rewrite decide_False by done.
  change (bool_decide (0 < length ["pli"])) with true.
  exact (acts_block "rtcp-fb" _ _ _ [] (acts_attrs [("subtype", Some "pli")]) b).
Qed.

End feedback_claims.

(** ** The conversions on the sample descriptions *)






(** With the tcp filter on, the stanza's ssltcp candidate is left out and its
    udp candidate is written unchanged. *)
Example jingle2media_candidates_filtered :
  @jingle2media_candidates wire (Samples.without_tcp SampleModels.empty)
    (JQ.find_child_ns "transport" XEP.ICE_UDP_TRANSPORT [Samples.video_content]) ""
  = "a=candidate:1 1 udp 2130706431 10.0.0.1 10000 typ host generation 0" +:+ JS.CRLF.
Proof. vm_compute. reflexivity. Qed.

(** With the tcp filter on, the tcp candidate line of the audio section is
    left out of the transport element and the udp one is kept. *)
Example transportToJingle_candidates_filtered :
  Xml.count_desc (Xml.is_element "candidate")
    (nodeTree (@transportToJingle wire (Samples.without_tcp SampleModels.audio_video) 0
                 Samples.iq)) = 1.
Proof. vm_compute. reflexivity. Qed.

(** C9, the claim as stated fails: the stanza has one content, and the model
    that held an audio section before the call holds two sections after it,
    the earlier one first. *)
Lemma fromJingle_keeps_earlier_sections :
  (length (JQ.find_child "content" [Samples.jingle]),
   length (media (@fromJingle wire 7 Samples.jingle SampleModels.bare_audio)),
   head (media (@fromJingle wire 7 Samples.jingle SampleModels.bare_audio)))
  = (1, 2, Some (Samples.text Samples.bare_audio_section)).
Proof. vm_compute. reflexivity. Qed.

(** On the model constructed from the empty text the media list is the one
    built from the stanza. *)
Example fromJingle_on_empty_model :
  media (@fromJingle wire 7 Samples.jingle SampleModels.empty)
  = [@jingle2media wire SampleModels.empty Samples.video_content].
Proof. vm_compute. reflexivity. Qed.

(** C5 on the sample content: the user source is declared first, and the
    line of the mixer source is written first. *)
Example mixer_source_first :
  (@mixer_source wire <$> content_sources Samples.video_content,
   JS.substring_from
     (String.length (@jingle2media_head wire SampleModels.empty Samples.video_content))
     (@jingle2media wire SampleModels.empty Samples.video_content))
  = ([false; true],
     "a=ssrc:2 msid:mixedmslabel mixedlabelvideo0" +:+ JS.CRLF
     +:+ "a=ssrc:1 msid:user-stream track" +:+ JS.CRLF).
Proof. vm_compute. reflexivity. Qed.

(** C7 on the sample description. *)
Example containsSSRC_sample :
  (@containsSSRC wire SampleModels.audio_video "1234",
   @containsSSRC wire SampleModels.audio_video "99") = (true, false).
Proof. vm_compute. reflexivity. Qed.

(** C8 with the sample codec. *)
Lemma feedback_round_trip_witness :
  @rtcpFbFromJingle [Samples.payload_100] (Xml.getAttribute "id" Samples.payload_100)
  = "a=rtcp-fb:100 nack pli" +:+ JS.CRLF
  ∧ acts (@rtcpFbToJingle_section wire
            (@rtcpFbFromJingle [Samples.payload_100]
               (Xml.getAttribute "id" Samples.payload_100)) "100")
         id (Xml.childNodes Samples.payload_100).
Proof. apply (@feedback_round_trip wire). reflexivity. Defined.

(** C10 on the sample description, and on a text without a media line. *)
Example constructor_raw_samples :
  (raw SampleModels.audio_video, raw (constructor "v=0" false))
  = (Samples.audio_video, "v=0" +:+ JS.CRLF).
Proof. vm_compute. reflexivity. Qed.


(** The BUNDLE group of the sample after the edit. *)
Example addMline_edit_bundle :
  (λ sdp, sdp_groups sdp) <$>
    match addMline_edit 2 "video" Samples.parsed_audio_video with
    | Normal sdp => Some sdp
    | Throw _ => None
    end
  = Some (Some [{| group_type := "BUNDLE"; group_mids := "0 1 2" |}]).
Proof. vm_compute. reflexivity. Qed.

(** C4, the claim as stated fails: on the parsed description with an audio
    section only, the edit for a video source throws. *)
Lemma addMline_edit_throws :
  addMline_edit 1 "video" Samples.parsed_audio_only
  = Throw (TypeError "Cannot set properties of undefined (setting 'mid')").
Proof. vm_compute. reflexivity. Qed.

(** C4 as amended, on a model whose description parses to the audio-only
    sample. *)
Lemma addMline_missing_type_throws_witness :
  @addMlineForNewLocalSource (Samples.reads_as Samples.parsed_audio_only) "video"
    SampleModels.bare_audio
  = (Throw (TypeError "Cannot set properties of undefined (setting 'mid')"),
     SampleModels.bare_audio).
Proof.
  apply (@addMline_missing_type_throws (Samples.reads_as Samples.parsed_audio_only)).
  reflexivity.
Defined.
